(** * The Firebird dialect of sqlalchemy-firebird: [sqlalchemy_firebird/base.py]

    A shallow embedding of the dialect's capability negotiation
    ([FBDialect.initialize]), catalog reflection ([has_table],
    [get_columns]), SQL rendering overrides ([FBCompiler], [FBDDLCompiler],
    [FBTypeCompiler]) and identifier policy ([FBIdentifierPreparer]),
    followed by the properties of the specification that they decide.

    Python values are modelled as follows.
    - [str] is [string]; the built-in methods used by the dialect are in
      [PyStr].  The model is exact on 7-bit ASCII text: a character outside
      ASCII is neither whitespace nor cased.
    - [int] is [Z], a catalog column that may be SQL NULL is an [option].
    - [float] is [spec_float] (IEEE 754 binary64), compared with [SFltb].
    - a [dict] with string keys is a [gmap string _], a [set] of strings a
      [gset string].
    - an exception is a [Raise] outcome; warnings and catalog queries are
      recorded in an event log. *)

From Stdlib Require Import ZArith String Ascii List Bool Lia.
From Stdlib Require Import Floats.SpecFloat DecimalString.
From stdpp Require Import gmap strings.
Import ListNotations.
Open Scope string_scope.

(** ** Python built-ins on strings *)

Module PyStr.

Definition in_range (lo hi : nat) (c : ascii) : bool :=
  let n := nat_of_ascii c in (lo <=? n)%nat && (n <=? hi)%nat.

(** [str.isspace] on one character: TAB..CR, FS..US and the space. *)
Definition isspace (c : ascii) : bool := in_range 9 13 c || in_range 28 32 c.

Definition is_upper_letter (c : ascii) : bool := in_range 65 90 c.
Definition is_lower_letter (c : ascii) : bool := in_range 97 122 c.

Definition lower_char (c : ascii) : ascii :=
  if is_upper_letter c then ascii_of_nat (nat_of_ascii c + 32) else c.

Definition upper_char (c : ascii) : ascii :=
  if is_lower_letter c then ascii_of_nat (nat_of_ascii c - 32) else c.

(** [s.lower()] and [s.upper()]. *)
Fixpoint lower (s : string) : string :=
  match s with
  | EmptyString => EmptyString
  | String c r => String (lower_char c) (lower r)
  end.

Fixpoint upper (s : string) : string :=
  match s with
  | EmptyString => EmptyString
  | String c r => String (upper_char c) (upper r)
  end.

(** [s.lstrip()], [s.rstrip()] and [s.strip()] without argument. *)
Fixpoint lstrip (s : string) : string :=
  match s with
  | EmptyString => EmptyString
  | String c r => if isspace c then lstrip r else s
  end.

Fixpoint rstrip (s : string) : string :=
  match s with
  | EmptyString => EmptyString
  | String c r =>
      match rstrip r with
      | EmptyString => if isspace c then EmptyString else String c EmptyString
      | r' => String c r'
      end
  end.

Definition strip (s : string) : string := lstrip (rstrip s).

(** The slices [s[:n]] and [s[n:]] for a literal [n >= 0]. *)
Fixpoint slice_to (n : nat) (s : string) : string :=
  match n, s with
  | O, _ => EmptyString
  | S _, EmptyString => EmptyString
  | S n', String c r => String c (slice_to n' r)
  end.

Fixpoint slice_from (n : nat) (s : string) : string :=
  match n, s with
  | O, _ => s
  | S _, EmptyString => EmptyString
  | S n', String _ r => slice_from n' r
  end.

(** [str(n)] for an [int]. *)
Definition str_of_int (n : Z) : string := NilZero.string_of_int (Z.to_int n).

(** [bool(x)] for an [int] that may be [None]. *)
Definition truthy (x : option Z) : bool :=
  match x with
  | None => false
  | Some n => negb (n =? 0)%Z
  end.

(** [x != n] for an [int] [x] that may be [None]: [None] differs from
    every number. *)
Definition ne_int (x : option Z) (n : Z) : bool :=
  match x with
  | None => true
  | Some m => negb (m =? n)%Z
  end.

(** [x == n] under the same convention. *)
Definition eq_int (x : option Z) (n : Z) : bool := negb (ne_int x n).

End PyStr.

Import PyStr.

(** ** Outcomes of a call: exceptions, warnings and catalog queries *)

Inductive PyError : Type :=
  | AssertionError (msg : string)
  | TypeError
  | CompileError (msg : string)
  | NotImplementedError (msg : string).

Inductive result (A : Type) : Type :=
  | Ok (a : A)
  | Raise (e : PyError).

Arguments Ok {A} a.
Arguments Raise {A} e.

Definition rbind {A B : Type} (r : result A) (k : A -> result B) : result B :=
  match r with
  | Ok a => k a
  | Raise e => Raise e
  end.

(** The four catalog queries issued by the operations modelled here, named
    after the local variable that holds their text. *)
Inductive CatalogQuery : Type :=
  | has_table_tblqry
  | pk_keyqry
  | sequence_genqry
  | columns_tblqry.

Inductive Event : Type :=
  | Warn (msg : string)
  | Execute (q : CatalogQuery) (params : list string).

(** A reflection call yields its events, in order, and its outcome. *)
Definition M (A : Type) : Type := (list Event * result A)%type.

Definition ret {A : Type} (a : A) : M A := ([], Ok a).

Definition raise {A : Type} (e : PyError) : M A := ([], Raise e).

Definition emit (ev : Event) : M unit := ([ev], Ok tt).

Definition bind {A B : Type} (m : M A) (k : A -> M B) : M B :=
  match m with
  | (evs, Raise e) => (evs, Raise e)
  | (evs, Ok a) => let (evs', r) := k a in ((evs ++ evs')%list, r)
  end.

Notation "'do' x <- m ; k" := (bind m (fun x => k))
  (at level 10, x name, m at level 100, k at level 200).
Notation "'run' m ; k" := (bind m (fun _ => k))
  (at level 10, m at level 100, k at level 200).

Definition events {A : Type} (m : M A) : list Event := fst m.
Definition outcome {A : Type} (m : M A) : result A := snd m.

Fixpoint mapM {A B : Type} (f : A -> M B) (l : list A) : M (list B) :=
  match l with
  | [] => ret []
  | a :: l' => do b <- f a; do bs <- mapM f l'; ret (b :: bs)
  end.

(** ** Module-level tables: type map and reserved words *)

(** The type classes named by the dialect's tables.  [DateTime] is the
    generic date+time type of [colspecs] and [_FBDateTime] its Firebird
    implementation. *)
Inductive TypeEngine : Type :=
  | SMALLINT | INTEGER | FLOAT | DATE | TIME | TEXT | BIGINT | TIMESTAMP
  | VARCHAR | CHAR | BLOB | DateTime | _FBDateTime.

#[global] Instance TypeEngine_eq_dec : EqDecision TypeEngine.
Proof. solve_decision. Defined.

(** [issubclass(coltype, Integer)]: of the classes above, [SMALLINT],
    [INTEGER] and [BIGINT] derive from the host framework's [Integer]. *)
Definition issubclass_Integer (coltype : TypeEngine) : bool :=
  match coltype with
  | SMALLINT | INTEGER | BIGINT => true
  | _ => false
  end.

Definition colspecs : list (TypeEngine * TypeEngine) := [(DateTime, _FBDateTime)].

Definition ischema_names : gmap string TypeEngine :=
  list_to_map
    [ ("SHORT", SMALLINT); ("LONG", INTEGER); ("QUAD", FLOAT);
      ("FLOAT", FLOAT); ("DATE", DATE); ("TIME", TIME); ("TEXT", TEXT);
      ("INT64", BIGINT); ("DOUBLE", FLOAT); ("TIMESTAMP", TIMESTAMP);
      ("VARYING", VARCHAR); ("CSTRING", CHAR); ("BLOB", BLOB) ].

Definition RESERVED_WORDS : gset string :=
  list_to_set
    [ "add"; "admin"; "all";
      "alter"; "and"; "any";
      "as"; "at"; "avg";
      "begin"; "between"; "bigint";
      "binary"; "bit_length"; "blob";
      "boolean"; "both"; "by";
      "case"; "cast"; "char";
      "character"; "character_length"; "char_length";
      "check"; "close"; "collate";
      "column"; "comment"; "commit";
      "connect"; "constraint"; "corr";
      "count"; "covar_pop"; "covar_samp";
      "create"; "cross"; "current";
      "current_connection"; "current_date"; "current_role";
      "current_time"; "current_timestamp"; "current_transaction";
      "current_user"; "cursor"; "date";
      "day"; "dec"; "decfloat";
      "decimal"; "declare"; "default";
      "delete"; "deleting"; "deterministic";
      "disconnect"; "distinct"; "double";
      "drop"; "else"; "end";
      "escape"; "execute"; "exists";
      "external"; "extract"; "false";
      "fetch"; "filter"; "float";
      "for"; "foreign"; "from";
      "full"; "function"; "gdscode";
      "global"; "grant"; "group";
      "having"; "hour"; "in";
      "index"; "inner"; "insensitive";
      "insert"; "inserting"; "int";
      "int128"; "integer"; "into";
      "is"; "join"; "lateral";
      "leading"; "left"; "like";
      "local"; "localtime"; "localtimestamp";
      "long"; "lower"; "max";
      "merge"; "min"; "minute";
      "month"; "national"; "natural";
      "nchar"; "no"; "not";
      "null"; "numeric"; "octet_length";
      "of"; "offset"; "on";
      "only"; "open"; "or";
      "order"; "outer"; "over";
      "parameter"; "plan"; "position";
      "post_event"; "precision"; "primary";
      "procedure"; "publication"; "rdb$db_key";
      "rdb$error"; "rdb$get_context"; "rdb$get_transaction_cn";
      "rdb$record_version"; "rdb$role_in_use"; "rdb$set_context";
      "rdb$system_privilege"; "real"; "record_version";
      "recreate"; "recursive"; "references";
      "regr_avgx"; "regr_avgy"; "regr_count";
      "regr_intercept"; "regr_r2"; "regr_slope";
      "regr_sxx"; "regr_sxy"; "regr_syy";
      "release"; "resetting"; "return";
      "returning_values"; "returns"; "revoke";
      "right"; "rollback"; "row";
      "rows"; "row_count"; "savepoint";
      "scroll"; "second"; "select";
      "sensitive"; "set"; "similar";
      "smallint"; "some"; "sqlcode";
      "sqlstate"; "start"; "stddev_pop";
      "stddev_samp"; "sum"; "table";
      "then"; "time"; "timestamp";
      "timezone_hour"; "timezone_minute"; "to";
      "trailing"; "trigger"; "trim";
      "true"; "unbounded"; "union";
      "unique"; "unknown"; "update";
      "updating"; "upper"; "user";
      "using"; "value"; "values";
      "varbinary"; "varchar"; "variable";
      "varying"; "var_pop"; "var_samp";
      "view"; "when"; "where";
      "while"; "window"; "with";
      "without"; "year" ].

(** ** Dialect state and capability negotiation *)

(** An item of the server version tuple, for instance
    [(2, 5, 0, "firebird")]. *)
Inductive VersionItem : Type :=
  | VInt (n : Z)
  | VStr (s : string).

Definition item_eqb (a b : VersionItem) : bool :=
  match a, b with
  | VInt m, VInt n => (m =? n)%Z
  | VStr s, VStr t => (s =? t)%string
  | _, _ => false
  end.

(** [a >= b] on two items; ordering a number against a string raises. *)
Definition item_ge (a b : VersionItem) : result bool :=
  match a, b with
  | VInt m, VInt n => Ok (n <=? m)%Z
  | VStr s, VStr t =>
      Ok (match String.compare s t with Lt => false | _ => true end)
  | _, _ => Raise TypeError
  end.

(** [a >= b] on tuples: the first position where the items differ decides,
    and a proper prefix is smaller. *)
Fixpoint tuple_ge (a b : list VersionItem) : result bool :=
  match a, b with
  | _, [] => Ok true
  | [], _ :: _ => Ok false
  | x :: a', y :: b' => if item_eqb x y then tuple_ge a' b' else item_ge x y
  end.

(** [s in t] for a string [s] and a tuple [t]. *)
Definition tuple_contains (s : string) (t : list VersionItem) : bool :=
  existsb (item_eqb (VStr s)) t.

(** The instance attributes of [FBDialect] read or written by the code
    below.  [self_ischema_names] and [self_colspecs] are the attributes
    [self.ischema_names] and [self.colspecs], which start as the
    module-level tables; [implicit_returning] is the entry of the instance
    [__dict__], absent until something sets it. *)
Record FBDialect : Type := {
  _version_two : bool;
  self_ischema_names : gmap string TypeEngine;
  self_colspecs : list (TypeEngine * TypeEngine);
  implicit_returning : option bool;
  max_identifier_length : Z;
  server_version_info : list VersionItem
}.

(** What the driver reports on a connection, and the catalog behind it.
    The three row functions give the rows that the engine returns for the
    primary-key, generator and column queries at given parameters. *)
Record FieldRow : Type := {
  fname : string;
  null_flag : option Z;
  ftype : string;
  stype : option Z;
  flen : option Z;
  fprec : option Z;
  fscale : option Z;
  fdefault : option string;
  computed_source : option string
}.

Record Connection : Type := {
  reported_version : list VersionItem;
  engine_version : spec_float;
  rdb_relations : list string;
  keyqry_rows : string -> string -> list string;
  genqry_rows : string -> string -> list string;
  tblqry_rows : string -> list FieldRow
}.

(** A dialect object on which [initialize] has not run: the class
    attributes of [FBDialect], over the host framework's default for the
    identifier length and whatever the constructor stored for
    [implicit_returning]. *)
Definition new_dialect (host_max_identifier_length : Z)
    (ctor_implicit_returning : option bool) : FBDialect :=
  {| _version_two := true;
     self_ischema_names := ischema_names;
     self_colspecs := colspecs;
     implicit_returning := ctor_implicit_returning;
     max_identifier_length := host_max_identifier_length;
     server_version_info := [] |}.

(** The float literal [4.0]. *)
Definition float_4_0 : spec_float := S754_finite false 4503599627370496 (-50).

(** The value assigned to [self._version_two]. *)
Definition detect_version_two (info : list VersionItem) : result bool :=
  rbind (if tuple_contains "firebird" info then tuple_ge info [VInt 2]
         else Ok false)
    (fun fb =>
       if fb then Ok true
       else if tuple_contains "interbase" info then tuple_ge info [VInt 6]
       else Ok false).

Definition initialize (self : FBDialect) (connection : Connection)
    : result FBDialect :=
  (* super().initialize(connection) stores the reported version *)
  let info := reported_version connection in
  rbind (detect_version_two info) (fun version_two =>
    let names :=
      if version_two then self_ischema_names self
      else <["TIMESTAMP" := DATE]> ischema_names in
    let specs :=
      if version_two then self_colspecs self else [(DateTime, DATE)] in
    let returning :=
      version_two && default true (implicit_returning self) in
    Ok {| _version_two := version_two;
          self_ischema_names := names;
          self_colspecs := specs;
          implicit_returning := Some returning;
          max_identifier_length :=
            if SFltb (engine_version connection) float_4_0 then 31%Z
            else 252%Z;
          server_version_info := info |}).

(** ** Identifier policy: [FBIdentifierPreparer] *)

(** Modelled from the spec: the host framework's constant
    [compiler.ILLEGAL_INITIAL_CHARACTERS] is not under src/.  It is the
    generic set of illegal leading characters of section 4.2, the ten
    digits and the dollar sign. *)
Definition ILLEGAL_INITIAL_CHARACTERS : list ascii :=
  ["0"; "1"; "2"; "3"; "4"; "5"; "6"; "7"; "8"; "9"; "$"]%char.

Definition reserved_words : gset string := RESERVED_WORDS.

(** Instance search treats the two sets as atoms. *)
#[global] Typeclasses Opaque RESERVED_WORDS reserved_words.

(** [value in self.reserved_words]. *)
Definition in_reserved_words (value : string) : bool :=
  bool_decide (value ∈ reserved_words).

Definition illegal_initial_characters : list ascii :=
  (ILLEGAL_INITIAL_CHARACTERS ++ ["_"%char])%list.

(** [all(p(c) for c in s)]. *)
Fixpoint all_chars (p : ascii -> bool) (s : string) : bool :=
  match s with
  | EmptyString => true
  | String c r => p c && all_chars p r
  end.

(** Modelled from the spec: the case tests that section 4.2 names.  A name
    contains lowercase characters when one of its characters is a
    lower-case letter.  It is all-uppercase when it has a cased character
    and upper-casing leaves it unchanged, and all-lower-case when it has a
    cased character and lower-casing leaves it unchanged. *)
Definition contains_lowercase (name : string) : bool :=
  negb (all_chars (fun c => negb (is_lower_letter c)) name).

Definition is_all_uppercase (name : string) : bool :=
  (upper name =? name)%string && negb (upper name =? lower name)%string.

Definition is_all_lowercase (name : string) : bool :=
  (lower name =? name)%string && negb (upper name =? lower name)%string.

(** Modelled from the spec: [requires_quoting] of section 4.2, which the
    preparer inherits from the host framework (not under src/), over the
    reserved words and the illegal leading characters that
    [FBIdentifierPreparer] installs.  In the words of the section, it
    "returns true if the name contains lowercase characters, is not
    all-uppercase, or case-insensitively matches an entry in the Reserved
    Word Set, or begins with an illegal leading character". *)
Definition requires_quoting (name : string) : bool :=
  contains_lowercase name
  || negb (is_all_uppercase name)
  || in_reserved_words (lower name)
  || match name with
     | EmptyString => false
     | String c _ => bool_decide (c ∈ illegal_initial_characters)
     end.

(** Modelled from the spec: [normalize] of section 4.2, inherited from the
    host framework (not under src/): "normalization lower-cases an
    all-uppercase catalog name ... and leaves mixed/lower-case names
    untouched". *)
Definition normalize (name : string) : string :=
  if is_all_uppercase name then lower name else name.

(** Modelled from the spec: [denormalize] of sections 3 and 4.2, inherited
    from the host framework (not under src/): the conversion back to the
    catalog form.  The catalog folds unquoted identifiers to uppercase, so
    an all-lower-case canonical name is upper-cased; every other name is
    left untouched. *)
Definition denormalize (name : string) : string :=
  if is_all_lowercase name then upper name else name.

(** ** Catalog reflection: [has_table] and [get_columns] *)

(** The two name conversions that [FBDialect] inherits and calls as
    [self.normalize_name] and [self.denormalize_name].  The reflection code
    is embedded over any implementation of them. *)
Class HostDialect : Type := {
  normalize_name : string -> string;
  denormalize_name : string -> string
}.

(** The conversions of section 4.2 as an implementation of that
    interface. *)
Definition spec_host_dialect : HostDialect :=
  {| normalize_name := normalize; denormalize_name := denormalize |}.

(** A reflected column type: the opaque [NULLTYPE], an exact numeric built
    with keyword arguments, or a class of the type map called with
    positional arguments. *)
Inductive TypeInstance : Type :=
  | NULLTYPE
  | NUMERIC (precision : option Z) (scale : Z)
  | New (cls : TypeEngine) (args : list (option Z)).

(** The dictionary built for one column.  The keys [quote], [computed] and
    [sequence] are set only on some rows: [None] is an absent key. *)
Record ColumnDict : Type := {
  cd_name : string;
  cd_type : TypeInstance;
  cd_nullable : bool;
  cd_default : option string;
  cd_autoincrement : string;
  cd_quote : option bool;
  cd_computed : option string;
  cd_sequence : option string
}.

Record PkConstraint : Type := {
  constrained_columns : list string;
  pk_name : option string
}.

(** [EXISTS (SELECT .. FROM rdb$relations WHERE rdb$relation_name = :tbl_name)]
    over the single row of [rdb$database]. *)
Definition has_table_rows (connection : Connection) (tbl_name : string)
    : list Z :=
  if existsb (String.eqb tbl_name) (rdb_relations connection) then [1%Z]
  else [].

(** [rows.first()]. *)
Definition first {A : Type} (rows : list A) : option A := head rows.

(** Lines 788-801: the default value of a column from its source text. *)
Definition column_default (fdefault : option string) : result (option string) :=
  match fdefault with
  | None => Ok None
  | Some source =>
      let defexpr := lstrip source in
      if (upper (rstrip (slice_to 8 defexpr)) =? "DEFAULT")%string then
        let defvalue := strip (slice_from 8 defexpr) in
        if (defvalue =? "NULL")%string then Ok None else Ok (Some defvalue)
      else Raise (AssertionError ("Unrecognized default value: " ++ defexpr))
  end.

(** Lines 764-785: the type of a column from the type map [names]. *)
Definition column_type (names : gmap string TypeEngine) (name : string)
    (row : FieldRow) : M TypeInstance :=
  let colspec := rstrip (ftype row) in
  match names !! colspec with
  | None =>
      run emit (Warn ("Did not recognize type '" ++ colspec
                      ++ "' of column '" ++ name ++ "'"));
      ret NULLTYPE
  | Some coltype =>
      if issubclass_Integer coltype && ne_int (fprec row) 0 then
        match fscale row with
        | Some scale => ret (NUMERIC (fprec row) (scale * -1))
        | None => raise TypeError
        end
      else if (colspec =? "VARYING")%string || (colspec =? "CSTRING")%string
      then ret (New coltype [flen row])
      else if (colspec =? "TEXT")%string then ret (New TEXT [flen row])
      else if (colspec =? "BLOB")%string then
        if eq_int (stype row) 1 then ret (New TEXT []) else ret (New BLOB [])
      else ret (New coltype [])
  end.

Section Reflection.

Context `{HostDialect}.

Definition has_table (self : FBDialect) (connection : Connection)
    (table_name : string) : M bool :=
  if (max_identifier_length self <? Z.of_nat (String.length table_name))%Z
  then
    ret false
  else
    let tbl_name := denormalize_name table_name in
    run emit (Execute has_table_tblqry [tbl_name]);
    let c := has_table_rows connection tbl_name in
    ret (match first c with Some _ => true | None => false end).

Definition get_pk_constraint (connection : Connection)
    (table_name : string) : M PkConstraint :=
  let tablename := denormalize_name table_name in
  run emit (Execute pk_keyqry ["PRIMARY KEY"; tablename]);
  let c := keyqry_rows connection "PRIMARY KEY" tablename in
  let pkfields := map normalize_name c in
  ret {| constrained_columns := pkfields; pk_name := None |}.

Definition get_column_sequence (connection : Connection)
    (table_name column_name : string) : M (option string) :=
  let tablename := denormalize_name table_name in
  let colname := denormalize_name column_name in
  run emit (Execute sequence_genqry [tablename; colname]);
  let genr := first (genqry_rows connection tablename colname) in
  ret (match genr with
       | Some fgenerator => Some (normalize_name fgenerator)
       | None => None
       end).

(** The body of the loop over the rows of the column query. *)
Definition get_columns_row (self : FBDialect) (connection : Connection)
    (tablename : string) (pkey_cols : list string) (row : FieldRow)
    : M ColumnDict :=
  let name := normalize_name (fname row) in
  let orig_colname := fname row in
  do coltype <- column_type (self_ischema_names self) name row;
  do defvalue <- ([], column_default (fdefault row));
  let quote :=
    if (lower orig_colname =? orig_colname)%string then Some true
    else None in
  let computed := computed_source row in
  do sequence <-
    (match pkey_cols with
     | [pkey] =>
         if (name =? pkey)%string
         then get_column_sequence connection tablename name
         else ret None
     | _ => ret None
     end);
  ret {| cd_name := name;
         cd_type := coltype;
         cd_nullable := negb (truthy (null_flag row));
         cd_default := defvalue;
         cd_autoincrement := "auto";
         cd_quote := quote;
         cd_computed := computed;
         cd_sequence := sequence |}.

Definition get_columns (self : FBDialect) (connection : Connection)
    (table_name : string) : M (list ColumnDict) :=
  do pk_constraint <- get_pk_constraint connection table_name;
  let pkey_cols := constrained_columns pk_constraint in
  let tablename := denormalize_name table_name in
  run emit (Execute columns_tblqry [tablename]);
  let c := tblqry_rows connection tablename in
  mapM (get_columns_row self connection tablename pkey_cols) c.

End Reflection.

(** ** SQL rendering: the constructs handed to the compilers *)

Record Sequence : Type := {
  sequence_name : string;
  start : option Z;
  increment : option Z
}.

Record StringType : Type := {
  type_length : option Z;
  charset : option string
}.

(** A column type as the type compiler dispatches on it: the visit points
    that [FBTypeCompiler] overrides, and any other visit name. *)
Inductive SqlType : Type :=
  | VARCHAR_type (type_ : StringType)
  | CHAR_type (type_ : StringType)
  | TEXT_type
  | BLOB_type
  | boolean_type
  | datetime_type
  | other_type (visit_name : string).

(** The values of [column.autoincrement]: [True], [False] or a string such
    as ["auto"]. *)
Inductive AutoIncrement : Type :=
  | auto_True
  | auto_False
  | auto_str (s : string).

Inductive ColumnDefault : Type :=
  | no_default
  | Sequence_default (seq : Sequence)
  | other_default.

Record Computed (Clause : Type) : Type := {
  sqltext : Clause;
  persisted : option bool
}.
Arguments sqltext {Clause} _.
Arguments persisted {Clause} _.

Record Select (Clause : Type) : Type := {
  _limit_clause : option Clause;
  _offset_clause : option Clause;
  _distinct : bool
}.
Arguments _limit_clause {Clause} _.
Arguments _offset_clause {Clause} _.
Arguments _distinct {Clause} _.

Record Alias (Clause : Type) : Type := {
  alias_name : string;
  is_truncated_label : bool;
  element : Clause
}.
Arguments alias_name {Clause} _.
Arguments is_truncated_label {Clause} _.
Arguments element {Clause} _.

(** A table column.  [is_autoincrement_column] is the test
    [column is column.table._autoincrement_column] and [identity_start] the
    dialect option [firebird_identity_start]. *)
Record Column (Clause : Type) : Type := {
  column_name : string;
  type : SqlType;
  computed : option (Computed Clause);
  autoincrement : AutoIncrement;
  nullable : option bool;
  primary_key : bool;
  default_ : ColumnDefault;
  identity_start : Z;
  is_autoincrement_column : bool
}.
Arguments column_name {Clause} _.
Arguments type {Clause} _.
Arguments computed {Clause} _.
Arguments autoincrement {Clause} _.
Arguments nullable {Clause} _.
Arguments primary_key {Clause} _.
Arguments default_ {Clause} _.
Arguments identity_start {Clause} _.
Arguments is_autoincrement_column {Clause} _.

(** What the compilers inherit from, or call in, the host framework: the
    generic rendering of clause elements and types, the preparer's
    formatting functions, and the [super()] methods that the overrides
    delegate to.  The rendering code is embedded over any implementation
    of this interface. *)
Class HostCompiler (Clause : Type) : Type := {
  process : Clause -> string;
  process_asfrom : Clause -> bool -> string;
  sql_compiler_process : Clause -> string;
  super_get_select_precolumns : Select Clause -> string;
  super_visit_alias : Alias Clause -> bool -> string;
  _truncated_identifier : string -> string -> string;
  format_alias : Alias Clause -> string -> string;
  format_sequence : Sequence -> string;
  format_column : Column Clause -> string;
  get_column_default_string : Column Clause -> option string;
  super_visit_CHAR : StringType -> string;
  super_visit_VARCHAR : StringType -> string;
  super_visit : string -> string;
  str_type : SqlType -> string
}.

(** [FBDialect.name]. *)
Definition dialect_name : string := "firebird".

Section Rendering.

Context {Clause : Type} `{HostCompiler Clause}.

(** *** [FBTypeCompiler] *)

Definition _extend_string (type_ : StringType) (basic : string) : string :=
  match charset type_ with
  | None => basic
  | Some cs => basic ++ " CHARACTER SET " ++ cs
  end.

Definition visit_CHAR (type_ : StringType) : string :=
  _extend_string type_ (super_visit_CHAR type_).

Definition visit_VARCHAR (type_ : StringType) : result string :=
  if negb (truthy (type_length type_)) then
    Raise (CompileError ("VARCHAR requires a length on dialect "
                         ++ dialect_name))
  else Ok (_extend_string type_ (super_visit_VARCHAR type_)).

Definition visit_TEXT : string := "BLOB SUB_TYPE 1".

Definition visit_BLOB : string := "BLOB SUB_TYPE 0".

(** [type_compiler.process(type_)]: dispatch on the visit name. *)
Definition type_compiler_process (type_ : SqlType) : result string :=
  match type_ with
  | VARCHAR_type t => visit_VARCHAR t
  | CHAR_type t => Ok (visit_CHAR t)
  | TEXT_type => Ok visit_TEXT
  | BLOB_type => Ok visit_BLOB
  | boolean_type => Ok (super_visit "SMALLINT")
  | datetime_type => Ok (super_visit "TIMESTAMP")
  | other_type visit_name => Ok (super_visit visit_name)
  end.

(** *** [FBCompiler] *)

Definition visit_alias (dialect : FBDialect) (alias : Alias Clause)
    (asfrom : bool) : string :=
  if _version_two dialect then super_visit_alias alias asfrom
  else if asfrom then
    let alias_name :=
      if is_truncated_label alias then
        let t := _truncated_identifier "alias" (alias_name alias) in
        if (t =? "")%string then alias_name alias else t
      else alias_name alias in
    process_asfrom (element alias) asfrom ++ " "
    ++ format_alias alias alias_name
  else process (element alias).

Definition get_select_precolumns (select : Select Clause) : string :=
  let result := super_get_select_precolumns select in
  let result :=
    match _limit_clause select with
    | Some limit => result ++ "FIRST (" ++ process limit ++ ") "
    | None => result
    end in
  let result :=
    match _offset_clause select with
    | Some offset => result ++ "SKIP (" ++ process offset ++ ") "
    | None => result
    end in
  result.

Definition limit_clause (select : Select Clause) : string := "".

(** *** [FBDDLCompiler] *)

Definition visit_create_sequence (dialect : FBDialect) (element : Sequence)
    : result string :=
  match start element with
  | Some _ =>
      Raise (NotImplementedError
               "Firebird SEQUENCE doesn't support START WITH")
  | None =>
      match increment element with
      | Some _ =>
          Raise (NotImplementedError
                   "Firebird SEQUENCE doesn't support INCREMENT BY")
      | None =>
          if _version_two dialect
          then Ok ("CREATE SEQUENCE " ++ format_sequence element)
          else Ok ("CREATE GENERATOR " ++ format_sequence element)
      end
  end.

Definition visit_drop_sequence (dialect : FBDialect) (element : Sequence)
    : string :=
  if _version_two dialect then "DROP SEQUENCE " ++ format_sequence element
  else "DROP GENERATOR " ++ format_sequence element.

Definition visit_computed_column (generated : Computed Clause)
    : result string :=
  match persisted generated with
  | Some _ =>
      Raise (CompileError
               ("Firebird computed columns do not support a persistence "
                ++ "method setting; set the 'persisted' flag to None for "
                ++ "Firebird support."))
  | None =>
      Ok ("GENERATED ALWAYS AS (" ++ sql_compiler_process (sqltext generated)
          ++ ")")
  end.

Definition autoincrement_is_True (column : Column Clause) : bool :=
  match autoincrement column with
  | auto_True => true
  | _ => false
  end.

Definition default_is_Sequence (column : Column Clause) : bool :=
  match default_ column with
  | Sequence_default _ => true
  | _ => false
  end.

Definition get_column_specification (column : Column Clause)
    : result string :=
  let colspec := format_column column in
  rbind
    (match computed column with
     | Some generated =>
         rbind (visit_computed_column generated) (fun text =>
           Ok (colspec ++ " " ++ str_type (type column) ++ " " ++ text))
     | None =>
         rbind (type_compiler_process (type column)) (fun text =>
           Ok (colspec ++ " " ++ text))
     end)
    (fun colspec =>
       let colspec :=
         if is_autoincrement_column column || autoincrement_is_True column
         then colspec ++ " GENERATED BY DEFAULT AS IDENTITY (START WITH "
              ++ str_of_int (identity_start column) ++ ")"
         else match get_column_default_string column with
              | Some default => colspec ++ " DEFAULT " ++ default
              | None => colspec
              end in
       let colspec :=
         match nullable column with
         | Some is_nullable =>
             if negb is_nullable || primary_key column
                || default_is_Sequence column
                || autoincrement_is_True column
             then colspec ++ " NOT NULL"
             else colspec
         | None => colspec
         end in
       Ok colspec).

End Rendering.

(** ** Vocabulary of the specification *)

(** The server version tuple names [product] with a major number of at
    least [least]. *)
Definition reports (product : string) (least major : Z)
    (rest : list VersionItem) : Prop :=
  In (VStr product) rest /\ (least <= major)%Z.

(** [s] begins with [keyword], case-insensitively. *)
Definition startswith_ci (keyword s : string) : bool :=
  String.prefix (upper keyword) (upper s).

(** [defexpr] is the keyword DEFAULT, in any case, followed by [rest],
    where [rest] is empty or begins with a whitespace character. *)
Definition delimited_DEFAULT (defexpr rest : string) : Prop :=
  exists keyword,
    defexpr = keyword ++ rest /\ upper keyword = "DEFAULT"
    /\ (rest = "" \/ exists c r, rest = String c r /\ isspace c = true).

(** A default text of exactly NULL stands for no default. *)
Definition null_is_absent (text : string) : option string :=
  if (text =? "NULL")%string then None else Some text.

(** The catalog name is all-uppercase: it has a cased character and
    upper-casing does not change it. *)
Definition all_uppercase (name : string) : Prop :=
  upper name = name /\ upper name <> lower name.




(** The column can be rendered: a computed column has no persistence
    setting, any other column has a type that compiles. *)
Definition renders {Clause : Type} (column : Column Clause) : Prop :=
  match computed column with
  | Some generated => persisted generated = None
  | None =>
      forall type_, type column = VARCHAR_type type_ ->
                    truthy (type_length type_) = true
  end.

(** ** Sample objects *)

(** The floats [1.5] and [5.0]. *)
Definition float_1_5 : spec_float := S754_finite false 6755399441055744 (-52).
Definition float_5_0 : spec_float := S754_finite false 5629499534213120 (-50).

Definition sample_row (name type_name : string) : FieldRow :=
  {| fname := name; null_flag := None; ftype := type_name; stype := None;
     flen := None; fprec := Some 0%Z; fscale := Some 0%Z; fdefault := None;
     computed_source := None |}.

Definition price_row : FieldRow :=
  {| fname := "PRICE"; null_flag := Some 1%Z; ftype := "SHORT   ";
     stype := Some 1%Z; flen := Some 2%Z; fprec := Some 5%Z;
     fscale := Some (-2)%Z; fdefault := Some "  default    0 ";
     computed_source := None |}.

Definition mixed_case_row : FieldRow :=
  {| fname := "Abc"; null_flag := None; ftype := "VARYING"; stype := None;
     flen := Some 10%Z; fprec := None; fscale := Some 0%Z;
     fdefault := Some "DEFAULT NULL"; computed_source := None |}.

Definition lower_case_row : FieldRow :=
  {| fname := "notes"; null_flag := None; ftype := "BLOB"; stype := Some 1%Z;
     flen := Some 8%Z; fprec := None; fscale := Some 0%Z; fdefault := None;
     computed_source := None |}.

Definition bad_default_row : FieldRow :=
  {| fname := "QTY"; null_flag := None; ftype := "LONG"; stype := None;
     flen := Some 4%Z; fprec := Some 0%Z; fscale := Some 0%Z;
     fdefault := Some "DEFAULT'x'"; computed_source := None |}.

(** A pre-2.0 server behind a pre-4.0 engine, with two tables. *)
Definition legacy_connection : Connection :=
  {| reported_version := [VInt 1; VInt 5; VInt 0; VStr "firebird"];
     engine_version := float_1_5;
     rdb_relations := ["ITEM"; "BROKEN"];
     keyqry_rows := fun _ tablename =>
       if (tablename =? "ITEM")%string then ["PRICE"] else [];
     genqry_rows := fun tablename colname =>
       if (tablename =? "ITEM")%string && (colname =? "PRICE")%string
       then ["ITEM_GEN"] else [];
     tblqry_rows := fun tablename =>
       if (tablename =? "ITEM")%string
       then [price_row; mixed_case_row; lower_case_row]
       else if (tablename =? "BROKEN")%string then [bad_default_row]
       else [] |}.

(** The same catalog behind a 5.0 engine reporting Firebird 5. *)
Definition modern_connection : Connection :=
  {| reported_version := [VInt 5; VInt 0; VInt 0; VStr "firebird"];
     engine_version := float_5_0;
     rdb_relations := rdb_relations legacy_connection;
     keyqry_rows := keyqry_rows legacy_connection;
     genqry_rows := genqry_rows legacy_connection;
     tblqry_rows := tblqry_rows legacy_connection |}.

Definition sample_dialect : FBDialect := new_dialect 9999 None.

(** A host compiler over integer literals as clause elements.  Its generic
    pre-column hook renders the DISTINCT keyword of a distinct select, and
    its generic alias rendering uses AS. *)
Definition sample_host_compiler : HostCompiler Z :=
  {| process := str_of_int;
     process_asfrom := fun e _ => str_of_int e;
     sql_compiler_process := str_of_int;
     super_get_select_precolumns := fun select =>
       if _distinct select then "DISTINCT " else "";
     super_visit_alias := fun alias asfrom =>
       if asfrom then str_of_int (element alias) ++ " AS " ++ alias_name alias
       else str_of_int (element alias);
     _truncated_identifier := fun _ name => name;
     format_alias := fun _ name => name;
     format_sequence := sequence_name;
     format_column := column_name;
     get_column_default_string := fun _ => None;
     super_visit_CHAR := fun _ => "CHAR";
     super_visit_VARCHAR := fun t =>
       "VARCHAR(" ++ str_of_int (default 0%Z (type_length t)) ++ ")";
     super_visit := fun visit_name => visit_name;
     str_type := fun _ => "INTEGER" |}.

Definition sample_sequence : Sequence :=
  {| sequence_name := "item_gen"; start := None; increment := None |}.

Definition sample_column : Column Z :=
  {| column_name := "id"; type := other_type "INTEGER"; computed := None;
     autoincrement := auto_str "auto"; nullable := Some true;
     primary_key := true; default_ := no_default; identity_start := 0;
     is_autoincrement_column := false |}.

Definition distinct_page : Select Z :=
  {| _limit_clause := Some 10%Z; _offset_clause := Some 5%Z;
     _distinct := true |}.

(** The three columns reflected from the table [ITEM]. *)
Definition price_column : ColumnDict :=
  {| cd_name := "price"; cd_type := NUMERIC (Some 5%Z) 2;
     cd_nullable := false; cd_default := Some "0";
     cd_autoincrement := "auto"; cd_quote := None; cd_computed := None;
     cd_sequence := Some "item_gen" |}.

Definition mixed_case_column : ColumnDict :=
  {| cd_name := "Abc"; cd_type := New VARCHAR [Some 10%Z];
     cd_nullable := true; cd_default := None; cd_autoincrement := "auto";
     cd_quote := None; cd_computed := None; cd_sequence := None |}.

Definition lower_case_column : ColumnDict :=
  {| cd_name := "notes"; cd_type := New TEXT []; cd_nullable := true;
     cd_default := None; cd_autoincrement := "auto"; cd_quote := Some true;
     cd_computed := None; cd_sequence := None |}.


(** ** Further code of the dialect *)

(** *** [_FBDateTime.bind_processor] *)

(** A bound parameter value: a [datetime.date], a [datetime.datetime], or
    a value of any other type. *)
Inductive BindValue : Type :=
  | date_value (year month day : Z)
  | datetime_value (year month day hour minute second microsecond : Z)
  | other_value (repr : string).

(** The function [process] returned by [bind_processor]: the test
    [type(value) == datetime.date] holds for a plain date only. *)
Definition bind_processor (dialect : FBDialect) (value : BindValue)
    : BindValue :=
  match value with
  | date_value year month day => datetime_value year month day 0 0 0 0
  | _ => value
  end.

(** *** [FBDDLCompiler.post_create_table] *)

(** [s.replace(old, new)] for one-character [old] and [new]. *)
Fixpoint replace_char (old new : ascii) (s : string) : string :=
  match s with
  | EmptyString => EmptyString
  | String c r =>
      String (if Ascii.eqb c old then new else c) (replace_char old new r)
  end.

(** [on_commit] is the table option [firebird_on_commit]; [None] and the
    empty string are falsy. *)
Definition post_create_table (on_commit : option string) : string :=
  match on_commit with
  | None => ""
  | Some text =>
      if (text =? "")%string then ""
      else
        let on_commit_options := upper (replace_char "_" " " text) in
        String "010" " ON COMMIT " ++ on_commit_options
  end.

(** The text is made of ASCII characters; on such text [upper] is
    [str.upper]. *)
Definition is_ascii_text (text : string) : bool :=
  all_chars (fun c => (nat_of_ascii c <? 128)%nat) text.

(** *** Listings and grouped reflection *)

(** Rows of [rdb$relations] and [rdb$generators], with the columns that
    the listing queries read, and the rows that the foreign-key and index
    queries return for a table. *)
Record RelationRow : Type := {
  rdb_relation_name : string;
  rdb_view_blr : option string;
  rdb_system_flag : option Z;
  rdb_relation_type : option Z
}.

Record GeneratorRow : Type := {
  rdb_generator_name : string;
  rdb_generator_system_flag : option Z
}.

Record ForeignKeyRow : Type := {
  fk_cname : string;
  fk_fname : string;
  fk_targetrname : string;
  fk_targetfname : string
}.

Record IndexRow : Type := {
  ix_index_name : string;
  ix_unique_flag : option Z;
  ix_field_name : string
}.

Record Catalog : Type := {
  relations : list RelationRow;
  generators : list GeneratorRow;
  fkqry_rows : string -> list ForeignKeyRow;
  indexqry_rows : string -> list IndexRow
}.

(** SQL conditions on a nullable column: [x is null or x = 0], and
    [x = n], which is not true of NULL. *)
Definition sql_null_or_zero (x : option Z) : bool :=
  match x with
  | None => true
  | Some n => (n =? 0)%Z
  end.

Definition sql_equals (x : option Z) (n : Z) : bool :=
  match x with
  | None => false
  | Some m => (m =? n)%Z
  end.

(** SQL [TRIM]: blanks removed at both ends. *)
Fixpoint sql_ltrim (s : string) : string :=
  match s with
  | EmptyString => EmptyString
  | String c r => if Ascii.eqb c " " then sql_ltrim r else s
  end.

Fixpoint sql_rtrim (s : string) : string :=
  match s with
  | EmptyString => EmptyString
  | String c r =>
      match sql_rtrim r with
      | EmptyString =>
          if Ascii.eqb c " " then EmptyString else String c EmptyString
      | r' => String c r'
      end
  end.

Definition sql_trim (s : string) : string := sql_ltrim (sql_rtrim s).

(** The WHERE clauses of the four listing queries. *)
Definition is_table_row (r : RelationRow) : bool :=
  match rdb_view_blr r with None => true | Some _ => false end
  && sql_null_or_zero (rdb_system_flag r)
  && sql_equals (rdb_relation_type r) 0.

Definition is_temp_table_row (r : RelationRow) : bool :=
  match rdb_view_blr r with None => true | Some _ => false end
  && sql_null_or_zero (rdb_system_flag r)
  && (sql_equals (rdb_relation_type r) 4 || sql_equals (rdb_relation_type r) 5).

Definition is_view_row (r : RelationRow) : bool :=
  match rdb_view_blr r with None => false | Some _ => true end
  && sql_null_or_zero (rdb_system_flag r).

Definition is_user_generator_row (g : GeneratorRow) : bool :=
  sql_null_or_zero (rdb_generator_system_flag g).

(** The values of a [defaultdict] in insertion order: the entry of [key]
    is created from [default] when missing, then updated in place. *)
Fixpoint dict_update {V : Type} (key : string) (default : V) (f : V -> V)
    (d : list (string * V)) : list (string * V) :=
  match d with
  | [] => [(key, f default)]
  | (k, v) :: d' =>
      if (k =? key)%string then (k, f v) :: d'
      else (k, v) :: dict_update key default f d'
  end.

Record ForeignKey : Type := {
  fk_name : option string;
  fk_constrained_columns : list string;
  fk_referred_schema : option string;
  fk_referred_table : option string;
  fk_referred_columns : list string
}.

Definition new_foreign_key : ForeignKey :=
  {| fk_name := None; fk_constrained_columns := [];
     fk_referred_schema := None; fk_referred_table := None;
     fk_referred_columns := [] |}.

Record IndexRecord : Type := {
  index_name : string;
  index_column_names : list string;
  index_unique : bool
}.

Section Listings.

Context `{HostDialect}.

Definition get_table_names (catalog : Catalog) : list string :=
  map (fun r => normalize_name (sql_trim (rdb_relation_name r)))
    (List.filter is_table_row (relations catalog)).

Definition get_temp_table_names (catalog : Catalog) : list string :=
  map (fun r => normalize_name (sql_trim (rdb_relation_name r)))
    (List.filter is_temp_table_row (relations catalog)).

Definition get_view_names (catalog : Catalog) : list string :=
  map (fun r => normalize_name (sql_trim (rdb_relation_name r)))
    (List.filter is_view_row (relations catalog)).

Definition get_sequence_names (catalog : Catalog) : list string :=
  map (fun g => normalize_name (sql_trim (rdb_generator_name g)))
    (List.filter is_user_generator_row (generators catalog)).

Definition has_sequence (catalog : Catalog) (sequence_name : string) : bool :=
  let name := denormalize_name sequence_name in
  let c :=
    if existsb (fun g => String.eqb (rdb_generator_name g) name)
         (generators catalog)
    then [1%Z] else [] in
  match first c with Some _ => true | None => false end.

(** The body of the loop of [get_foreign_keys]; [not fk["name"]] holds for
    a missing name and for the empty string. *)
Definition foreign_key_step (fks : list (string * ForeignKey))
    (row : ForeignKeyRow) : list (string * ForeignKey) :=
  let cname := normalize_name (fk_cname row) in
  dict_update cname new_foreign_key
    (fun fk =>
       let unnamed :=
         match fk_name fk with
         | None => true
         | Some n => (n =? "")%string
         end in
       {| fk_name := if unnamed then Some cname else fk_name fk;
          fk_constrained_columns :=
            (fk_constrained_columns fk ++ [normalize_name (fk_fname row)])%list;
          fk_referred_schema := fk_referred_schema fk;
          fk_referred_table :=
            if unnamed then Some (normalize_name (fk_targetrname row))
            else fk_referred_table fk;
          fk_referred_columns :=
            (fk_referred_columns fk
             ++ [normalize_name (fk_targetfname row)])%list |})
    fks.

Definition get_foreign_keys (catalog : Catalog) (table_name : string)
    : list ForeignKey :=
  let tablename := denormalize_name table_name in
  let c := fkqry_rows catalog tablename in
  map snd (fold_left foreign_key_step c []).

(** The body of the loop of [get_indexes].  The dictionary is keyed by the
    raw index name; a record is filled in when its entry is created, which
    is when the key [name] is not yet in it. *)
Definition index_step (indexes : list (string * IndexRecord))
    (row : IndexRow) : list (string * IndexRecord) :=
  dict_update (ix_index_name row)
    {| index_name := normalize_name (ix_index_name row);
       index_column_names := [];
       index_unique := truthy (ix_unique_flag row) |}
    (fun indexrec =>
       {| index_name := index_name indexrec;
          index_column_names :=
            (index_column_names indexrec
             ++ [normalize_name (ix_field_name row)])%list;
          index_unique := index_unique indexrec |})
    indexes.

Definition get_indexes (catalog : Catalog) (table_name : string)
    : list IndexRecord :=
  let c := indexqry_rows catalog (denormalize_name table_name) in
  map snd (fold_left index_step c []).

End Listings.

(** A connection and a catalog describe the same relations. *)
Definition same_relations (connection : Connection) (catalog : Catalog)
    : Prop :=
  rdb_relations connection = map rdb_relation_name (relations catalog).

(** A small catalog: two tables, a view, a temporary table and a system
    table; one user generator; a two-column foreign key and a second one. *)
Definition sample_catalog : Catalog :=
  {| relations :=
       [ {| rdb_relation_name := "ITEM"; rdb_view_blr := None;
            rdb_system_flag := Some 0%Z; rdb_relation_type := Some 0%Z |};
         {| rdb_relation_name := "BROKEN"; rdb_view_blr := None;
            rdb_system_flag := None; rdb_relation_type := Some 0%Z |};
         {| rdb_relation_name := "ITEM_V"; rdb_view_blr := Some "blr";
            rdb_system_flag := Some 0%Z; rdb_relation_type := Some 1%Z |};
         {| rdb_relation_name := "SCRATCH"; rdb_view_blr := None;
            rdb_system_flag := Some 0%Z; rdb_relation_type := Some 4%Z |};
         {| rdb_relation_name := "RDB$RELATIONS"; rdb_view_blr := None;
            rdb_system_flag := Some 1%Z; rdb_relation_type := Some 0%Z |} ];
     generators :=
       [ {| rdb_generator_name := "ITEM_GEN";
            rdb_generator_system_flag := Some 0%Z |};
         {| rdb_generator_name := "RDB$SECURITY_CLASS";
            rdb_generator_system_flag := Some 1%Z |} ];
     fkqry_rows := fun _ =>
       [ {| fk_cname := "FK_A"; fk_fname := "X1";
            fk_targetrname := "OTHER"; fk_targetfname := "Y1" |};
         {| fk_cname := "FK_B"; fk_fname := "Z";
            fk_targetrname := "THIRD"; fk_targetfname := "W" |};
         {| fk_cname := "FK_A"; fk_fname := "X2";
            fk_targetrname := "OTHER"; fk_targetfname := "Y2" |} ];
     indexqry_rows := fun _ =>
       [ {| ix_index_name := "IX_A"; ix_unique_flag := Some 1%Z;
            ix_field_name := "X1" |};
         {| ix_index_name := "IX_A"; ix_unique_flag := Some 1%Z;
            ix_field_name := "X2" |};
         {| ix_index_name := "IX_B"; ix_unique_flag := None;
            ix_field_name := "Z" |} ] |}.

(** A connection to the sample catalog, with the version and engine of
    [modern_connection]. *)
Definition catalog_connection : Connection :=
  {| reported_version := reported_version modern_connection;
     engine_version := engine_version modern_connection;
     rdb_relations := map rdb_relation_name (relations sample_catalog);
     keyqry_rows := keyqry_rows modern_connection;
     genqry_rows := genqry_rows modern_connection;
     tblqry_rows := tblqry_rows modern_connection |}.

(** The host compiler [host] with another default-string function. *)
Definition with_default_string {Clause : Type} (host : HostCompiler Clause)
    (f : Column Clause -> option string) : HostCompiler Clause :=
  {| process := @process _ host;
     process_asfrom := @process_asfrom _ host;
     sql_compiler_process := @sql_compiler_process _ host;
     super_get_select_precolumns := @super_get_select_precolumns _ host;
     super_visit_alias := @super_visit_alias _ host;
     _truncated_identifier := @_truncated_identifier _ host;
     format_alias := @format_alias _ host;
     format_sequence := @format_sequence _ host;
     format_column := @format_column _ host;
     get_column_default_string := f;
     super_visit_CHAR := @super_visit_CHAR _ host;
     super_visit_VARCHAR := @super_visit_VARCHAR _ host;
     super_visit := @super_visit _ host;
     str_type := @str_type _ host |}.

(** * Properties *)

(** ** Facts about the string built-ins *)

Ltac ascii_cases c := destruct c as [[] [] [] [] [] [] [] []].





Lemma upper_char_T_not_space (c : ascii) :
  upper_char c = "T"%char -> isspace c = false.
Proof. ascii_cases c; intros Hc; try discriminate Hc; reflexivity. Qed.


Lemma length_upper (s : string) : String.length (upper s) = String.length s.
Proof. induction s as [|c r IH]; simpl; [reflexivity | now rewrite IH]. Qed.


(** ** Identifier policy *)



(** From here on the reserved word set is only evaluated as a whole. *)
Opaque RESERVED_WORDS.
Arguments in_reserved_words : simpl never.



Lemma requires_quoting_reserved (x : string) :
  in_reserved_words (lower x) = true -> requires_quoting x = true.
Proof.
  intros Hx. unfold requires_quoting. rewrite Hx.
  rewrite orb_true_r. reflexivity.
Qed.









(** ** Outcomes and events of monadic code *)

Lemma outcome_bind {A B : Type} (m : M A) (k : A -> M B) :
  outcome (bind m k)
  = match outcome m with
    | Ok a => outcome (k a)
    | Raise e => Raise e
    end.
Proof.
  destruct m as [evs [a|e]]; cbn [bind outcome snd]; [|reflexivity].
  destruct (k a); reflexivity.
Qed.

Lemma events_bind {A B : Type} (m : M A) (k : A -> M B) :
  events (bind m k)
  = match outcome m with
    | Ok a => (events m ++ events (k a))%list
    | Raise _ => events m
    end.
Proof.
  destruct m as [evs [a|e]]; cbn [bind outcome events fst snd]; [|reflexivity].
  destruct (k a); reflexivity.
Qed.

Lemma mapM_Ok {A B : Type} (f : A -> M B) (l : list A) (bs : list B) :
  outcome (mapM f l) = Ok bs ->
  Forall2 (fun a b => outcome (f a) = Ok b) l bs.
Proof.
  revert bs. induction l as [|a l IH]; intros bs; cbn [mapM].
  - intros [= <-]. constructor.
  - rewrite outcome_bind. destruct (outcome (f a)) as [b|e] eqn:Hfa;
      [|discriminate].
    rewrite outcome_bind. destruct (outcome (mapM f l)) as [bs'|e] eqn:Hl;
      [|discriminate].
    intros [= <-]. constructor; [exact Hfa | apply IH; reflexivity].
Qed.

Lemma mapM_Raise {A B : Type} (f : A -> M B) (l : list A) (a : A)
    (e : PyError) :
  In a l -> outcome (f a) = Raise e ->
  exists e', outcome (mapM f l) = Raise e'.
Proof.
  intros Hin Hfa. induction l as [|a0 l IH]; [destruct Hin|].
  cbn [mapM]. rewrite outcome_bind.
  destruct (outcome (f a0)) as [b|e0] eqn:Hfa0; [|eauto].
  rewrite outcome_bind. destruct Hin as [->|Hin].
  - congruence.
  - destruct (IH Hin) as [e' ->]. eauto.
Qed.

Lemma mapM_total {A B : Type} (f : A -> M B) (l : list A) :
  Forall (fun a => exists b, outcome (f a) = Ok b) l ->
  exists bs, outcome (mapM f l) = Ok bs.
Proof.
  induction 1 as [|a l [b Hb] _ [bs Hbs]]; cbn [mapM].
  - exists []. reflexivity.
  - exists (b :: bs). rewrite outcome_bind, Hb, outcome_bind, Hbs.
    reflexivity.
Qed.

(** ** Catalog reflection *)

Section ReflectionFacts.

Context `{HostDialect}.

(** [get_columns] runs the loop body on the rows of the column query for
    the denormalized table name. *)
Lemma outcome_get_columns (self : FBDialect) (connection : Connection)
    (table_name : string) :
  exists pkey_cols,
    outcome (get_columns self connection table_name)
    = outcome
        (mapM (get_columns_row self connection
                 (denormalize_name table_name) pkey_cols)
           (tblqry_rows connection (denormalize_name table_name))).
Proof.
  eexists. unfold get_columns, get_pk_constraint.
  repeat (rewrite outcome_bind; cbn [emit outcome snd ret]).
  reflexivity.
Qed.

Lemma outcome_get_column_sequence (connection : Connection)
    (table_name column_name : string) :
  exists seq,
    outcome (get_column_sequence connection table_name column_name) = Ok seq.
Proof.
  eexists. unfold get_column_sequence. rewrite outcome_bind.
  cbn [emit outcome snd ret]. reflexivity.
Qed.

(** What a successful pass of the loop body puts into the dictionary. *)
Lemma get_columns_row_Ok (self : FBDialect) (connection : Connection)
    (tablename : string) (pkey_cols : list string) (row : FieldRow)
    (col : ColumnDict) :
  outcome (get_columns_row self connection tablename pkey_cols row) = Ok col ->
  cd_name col = normalize_name (fname row)
  /\ outcome (column_type (self_ischema_names self)
                (normalize_name (fname row)) row) = Ok (cd_type col)
  /\ column_default (fdefault row) = Ok (cd_default col)
  /\ cd_nullable col = negb (truthy (null_flag row))
  /\ cd_autoincrement col = "auto"
  /\ cd_quote col
     = (if (lower (fname row) =? fname row)%string then Some true else None)
  /\ cd_computed col = computed_source row.
Proof.
  unfold get_columns_row. rewrite outcome_bind.
  destruct (outcome (column_type _ _ row)) as [coltype|e]; [|discriminate].
  rewrite outcome_bind. cbn [outcome snd].
  destruct (column_default (fdefault row)) as [defvalue|e]; [|discriminate].
  rewrite outcome_bind.
  match goal with
  | |- context [outcome ?m] =>
      destruct (outcome m) as [sequence|e]; [|discriminate]
  end.
  cbn [ret outcome snd]. intros [= <-]. cbn. repeat split.
Qed.

(** The loop body fails exactly when the type or the default does. *)
Lemma get_columns_row_total (self : FBDialect) (connection : Connection)
    (tablename : string) (pkey_cols : list string) (row : FieldRow)
    (coltype : TypeInstance) (defvalue : option string) :
  outcome (column_type (self_ischema_names self)
             (normalize_name (fname row)) row) = Ok coltype ->
  column_default (fdefault row) = Ok defvalue ->
  exists col,
    outcome (get_columns_row self connection tablename pkey_cols row) = Ok col.
Proof.
  intros Htype Hdef. unfold get_columns_row.
  rewrite outcome_bind, Htype, outcome_bind. cbn [outcome snd].
  rewrite Hdef, outcome_bind.
  assert (Hseq : exists seq,
    outcome (match pkey_cols with
             | [pkey] =>
                 if (normalize_name (fname row) =? pkey)%string
                 then get_column_sequence connection tablename
                        (normalize_name (fname row))
                 else ret None
             | _ => ret None
             end) = Ok seq).
  { destruct pkey_cols as [|pkey [|? ?]]; try (eexists; reflexivity).
    destruct (_ =? _)%string; [|eexists; reflexivity].
    apply outcome_get_column_sequence. }
  destruct Hseq as [seq ->]. eexists. reflexivity.
Qed.

Lemma get_columns_row_default_Raise (self : FBDialect)
    (connection : Connection) (tablename : string)
    (pkey_cols : list string) (row : FieldRow) (e : PyError) :
  column_default (fdefault row) = Raise e ->
  exists e',
    outcome (get_columns_row self connection tablename pkey_cols row)
    = Raise e'.
Proof.
  intros Hdef. unfold get_columns_row. rewrite outcome_bind.
  destruct (outcome (column_type _ _ row)) as [coltype|e0]; [|eauto].
  rewrite outcome_bind. cbn [outcome snd]. rewrite Hdef. eauto.
Qed.

End ReflectionFacts.

(** ** Slices and stripping *)

Lemma append_nil (b : string) : "" ++ b = b.
Proof. reflexivity. Qed.

Lemma append_cons (c : ascii) (a b : string) :
  String c a ++ b = String c (a ++ b).
Proof. reflexivity. Qed.

Ltac push_append := rewrite ?append_cons, ?append_nil.

Lemma append_nil_r (a : string) : a ++ "" = a.
Proof. induction a as [|x a IH]; push_append; [reflexivity | now rewrite IH]. Qed.

Lemma append_assoc_string (a b c : string) : (a ++ b) ++ c = a ++ (b ++ c).
Proof.
  induction a as [|x a IH]; push_append; [reflexivity | now rewrite IH].
Qed.

Lemma length_append_string (a b : string) :
  String.length (a ++ b) = (String.length a + String.length b)%nat.
Proof.
  induction a as [|x a IH]; push_append; cbn [String.length];
    [reflexivity | now rewrite IH].
Qed.

Lemma slice_to_from (n : nat) (s : string) : slice_to n s ++ slice_from n s = s.
Proof.
  revert s. induction n as [|n IH]; intros [|c r];
    cbn [slice_to slice_from]; push_append; try reflexivity.
  now rewrite IH.
Qed.

Lemma length_slice_to (n : nat) (s : string) :
  (String.length (slice_to n s) <= n)%nat.
Proof.
  revert s. induction n as [|n IH]; intros [|c r]; cbn; try lia.
  specialize (IH r). lia.
Qed.

Lemma slice_from_short (n : nat) (s : string) :
  (String.length (slice_to n s) < n)%nat -> slice_from n s = "".
Proof.
  revert s. induction n as [|n IH]; intros [|c r]; cbn; try lia;
    try reflexivity.
  intros Hlt. apply IH. lia.
Qed.

(** [rstrip] removes a run of whitespace from the end, and nothing else. *)
Lemma rstrip_split (s : string) :
  exists ws, s = rstrip s ++ ws /\ all_chars isspace ws = true.
Proof.
  induction s as [|c r (ws & Hr & Hws)].
  - exists "". split; reflexivity.
  - cbn [rstrip]. destruct (rstrip r) as [|c' r'] eqn:Hstrip.
    + rewrite append_nil in Hr. destruct (isspace c) eqn:Hc.
      * exists (String c r). split; [reflexivity|].
        cbn [all_chars]. rewrite Hc, Hr. exact Hws.
      * exists ws. split; [|exact Hws]. push_append. now rewrite <- Hr.
    + exists ws. split; [|exact Hws]. rewrite append_cons. now rewrite <- Hr.
Qed.

Lemma strip_cons_space (c : ascii) (r : string) :
  isspace c = true -> strip (String c r) = strip r.
Proof.
  intros Hc. unfold strip. cbn [rstrip].
  destruct (rstrip r) as [|c' r'] eqn:Hstrip.
  - rewrite Hc. reflexivity.
  - cbn [lstrip]. rewrite Hc. reflexivity.
Qed.

(** ** The default value of a column *)

(** The assertion of [column_default] passes on exactly the texts made of
    the keyword and a delimited remainder, and the text kept is that
    remainder. *)
Lemma default_check_passes (defexpr : string) :
  upper (rstrip (slice_to 8 defexpr)) = "DEFAULT" ->
  exists rest,
    delimited_DEFAULT defexpr rest
    /\ strip (slice_from 8 defexpr) = strip rest.
Proof.
  intros Hcheck.
  pose proof (length_slice_to 8 defexpr) as Hlen.
  pose proof (slice_to_from 8 defexpr) as Hwhole.
  pose proof (slice_from_short 8 defexpr) as Hshort.
  remember (slice_to 8 defexpr) as head eqn:Hhead.
  remember (slice_from 8 defexpr) as tail eqn:Htail.
  destruct (rstrip_split head) as (ws & Hsplit & Hws).
  pose proof (f_equal String.length Hcheck) as Hklen.
  rewrite length_upper in Hklen. cbn [String.length] in Hklen.
  pose proof (f_equal String.length Hsplit) as Hsum.
  rewrite length_append_string, Hklen in Hsum.
  exists (ws ++ tail). split.
  - exists (rstrip head). split; [|split].
    + rewrite <- append_assoc_string, <- Hsplit. symmetry. exact Hwhole.
    + exact Hcheck.
    + destruct ws as [|c ws'].
      * left. push_append. apply Hshort. cbn [String.length] in Hsum. lia.
      * right. cbn [all_chars] in Hws.
        apply andb_true_iff in Hws as [Hc _]. push_append. eauto.
  - destruct ws as [|c ws']; [reflexivity|].
    cbn [all_chars] in Hws. apply andb_true_iff in Hws as [Hc _].
    cbn [String.length] in Hsum.
    assert (ws' = "") as ->
      by (destruct ws'; [reflexivity | cbn [String.length] in Hsum; lia]).
    push_append. symmetry. now apply strip_cons_space.
Qed.

Lemma default_check_delimited (defexpr rest : string) :
  delimited_DEFAULT defexpr rest ->
  upper (rstrip (slice_to 8 defexpr)) = "DEFAULT"
  /\ strip (slice_from 8 defexpr) = strip rest.
Proof.
  intros (keyword & -> & Hkw & Hrest).
  destruct keyword as [|c1 [|c2 [|c3 [|c4 [|c5 [|c6 [|c7 [|c8 k]]]]]]]];
    cbn in Hkw; try discriminate Hkw.
  injection Hkw as H1 H2 H3 H4 H5 H6 H7.
  pose proof (upper_char_T_not_space c7 H7) as Hc7.
  destruct Hrest as [-> | (c & r & -> & Hc)].
  - push_append. cbn [slice_to slice_from rstrip]. rewrite Hc7.
    cbn [upper]. rewrite H1, H2, H3, H4, H5, H6, H7. split; reflexivity.
  - push_append. cbn [slice_to slice_from rstrip]. rewrite Hc, Hc7.
    cbn [upper]. rewrite H1, H2, H3, H4, H5, H6, H7.
    split; [reflexivity|]. symmetry. now apply strip_cons_space.
Qed.

Lemma column_default_spec (source : string) :
  (exists rest,
      delimited_DEFAULT (lstrip source) rest
      /\ column_default (Some source) = Ok (null_is_absent (strip rest)))
  \/ ((forall rest, ~ delimited_DEFAULT (lstrip source) rest)
      /\ column_default (Some source)
         = Raise (AssertionError
                    ("Unrecognized default value: " ++ lstrip source))).
Proof.
  unfold column_default.
  destruct (upper (rstrip (slice_to 8 (lstrip source))) =? "DEFAULT")%string
    eqn:Hcheck.
  - left. apply String.eqb_eq in Hcheck.
    destruct (default_check_passes _ Hcheck) as (rest & Hdelim & Hstrip).
    exists rest. split; [exact Hdelim|]. rewrite Hstrip.
    unfold null_is_absent. destruct (strip rest =? "NULL")%string; reflexivity.
  - right. split; [|reflexivity].
    intros rest Hdelim. apply String.eqb_neq in Hcheck. apply Hcheck.
    now destruct (default_check_delimited _ _ Hdelim).
Qed.

(** ** Reflected columns: quote flag, default and numeric types *)

(** C2 (as amended).  For every column row returned by [get_columns], the
    descriptor carries the quote flag if and only if the catalog name is
    its own lower-case form, that is, has no uppercase character; on every
    other row the key is absent. *)
Theorem get_columns_quote_flag `{HostDialect} (self : FBDialect)
    (connection : Connection) (table_name : string) (cols : list ColumnDict) :
  outcome (get_columns self connection table_name) = Ok cols ->
  Forall2
    (fun row col =>
       (cd_quote col = Some true <-> lower (fname row) = fname row)
       /\ (cd_quote col = None <-> lower (fname row) <> fname row))
    (tblqry_rows connection (denormalize_name table_name)) cols.
Proof.
  destruct (outcome_get_columns self connection table_name) as [pk ->].
  intros Hcols. apply mapM_Ok in Hcols.
  eapply Forall2_impl; [exact Hcols|].
  intros row col Hrow. cbv beta in Hrow.
  apply get_columns_row_Ok in Hrow as (_ & _ & _ & _ & _ & -> & _).
  destruct (lower (fname row) =? fname row)%string eqn:Hcase.
  - apply String.eqb_eq in Hcase. split; split; congruence.
  - apply String.eqb_neq in Hcase. split; split; congruence.
Qed.

Lemma sample_get_columns :
  outcome (@get_columns spec_host_dialect sample_dialect legacy_connection
             "item")
  = Ok [price_column; mixed_case_column; lower_case_column].
Proof. vm_compute. reflexivity. Qed.

Lemma get_columns_quote_flag_witness :
  Forall2
    (fun row col =>
       (cd_quote col = Some true <-> lower (fname row) = fname row)
       /\ (cd_quote col = None <-> lower (fname row) <> fname row))
    (tblqry_rows legacy_connection
       (@denormalize_name spec_host_dialect "item"))
    [price_column; mixed_case_column; lower_case_column].
Proof.
  apply (@get_columns_quote_flag spec_host_dialect sample_dialect
           legacy_connection "item").
  vm_compute. reflexivity.
Defined.

(** C2 as stated fails: the catalog name [Abc] is not all-uppercase, and
    the column reflected from it carries no quote flag. *)
Lemma mixed_case_column_not_marked :
  outcome (@get_columns spec_host_dialect sample_dialect legacy_connection
             "item")
  = Ok [price_column; mixed_case_column; lower_case_column]
  /\ tblqry_rows legacy_connection "ITEM"
     = [price_row; mixed_case_row; lower_case_row]
  /\ fname mixed_case_row = "Abc"
  /\ ~ all_uppercase (fname mixed_case_row)
  /\ cd_quote mixed_case_column = None.
Proof.
  split; [vm_compute; reflexivity|].
  split; [reflexivity|]. split; [reflexivity|]. split; [|reflexivity].
  intros [Hupper _]. vm_compute in Hupper. discriminate Hupper.
Qed.

(** C3 (as amended).  During [get_columns], for every row with a non-null
    default source: after discarding leading whitespace the source must be
    the keyword DEFAULT, in any case, followed by the end of the text or by
    a whitespace character (the check reads the first eight characters);
    otherwise the call fails with an assertion error and returns no rows.
    When it holds, the reported default is the text after the keyword with
    surrounding whitespace stripped, and a remaining text of exactly NULL
    is reported as no default. *)
Theorem get_columns_default_source `{HostDialect} (self : FBDialect)
    (connection : Connection) (table_name : string) :
  (forall source,
      (exists rest,
          delimited_DEFAULT (lstrip source) rest
          /\ column_default (Some source) = Ok (null_is_absent (strip rest)))
      \/ ((forall rest, ~ delimited_DEFAULT (lstrip source) rest)
          /\ column_default (Some source)
             = Raise (AssertionError
                        ("Unrecognized default value: " ++ lstrip source))))
  /\ (forall cols,
        outcome (get_columns self connection table_name) = Ok cols ->
        Forall2
          (fun row col => column_default (fdefault row) = Ok (cd_default col))
          (tblqry_rows connection (denormalize_name table_name)) cols)
  /\ (forall row source,
        In row (tblqry_rows connection (denormalize_name table_name)) ->
        fdefault row = Some source ->
        (forall rest, ~ delimited_DEFAULT (lstrip source) rest) ->
        exists e, outcome (get_columns self connection table_name) = Raise e).
Proof.
  split; [exact column_default_spec|]. split.
  - intros cols.
    destruct (outcome_get_columns self connection table_name) as [pk ->].
    intros Hcols. apply mapM_Ok in Hcols.
    eapply Forall2_impl; [exact Hcols|].
    intros row col Hrow. cbv beta in Hrow.
    now apply get_columns_row_Ok in Hrow as (_ & _ & Hdef & _).
  - intros row source Hin Hsource Hbad.
    destruct (outcome_get_columns self connection table_name) as [pk ->].
    destruct (column_default_spec source) as [(rest & Hdelim & _)|[_ Hraise]];
      [now destruct (Hbad rest)|].
    rewrite <- Hsource in Hraise.
    destruct (get_columns_row_default_Raise self connection
                (denormalize_name table_name) pk row _ Hraise) as [e' He'].
    eapply mapM_Raise; [exact Hin | exact He'].
Qed.

Lemma broken_default_not_delimited (rest : string) :
  ~ delimited_DEFAULT (lstrip "DEFAULT'x'") rest.
Proof.
  intros Hdelim. apply default_check_delimited in Hdelim as [Hcheck _].
  vm_compute in Hcheck. discriminate Hcheck.
Qed.

Lemma get_columns_default_source_witness :
  Forall2
    (fun row col => column_default (fdefault row) = Ok (cd_default col))
    (tblqry_rows legacy_connection
       (@denormalize_name spec_host_dialect "item"))
    [price_column; mixed_case_column; lower_case_column]
  /\ (exists e,
        outcome (@get_columns spec_host_dialect sample_dialect
                   legacy_connection "broken") = Raise e).
Proof.
  destruct (@get_columns_default_source spec_host_dialect sample_dialect
              legacy_connection "item") as (_ & Hok & _).
  destruct (@get_columns_default_source spec_host_dialect sample_dialect
              legacy_connection "broken") as (_ & _ & Hbad).
  split.
  - apply Hok. vm_compute. reflexivity.
  - apply (Hbad bad_default_row "DEFAULT'x'").
    + vm_compute. left. reflexivity.
    + reflexivity.
    + exact broken_default_not_delimited.
Defined.

(** C3 as stated fails: [DEFAULT'x'] begins with the keyword DEFAULT, and
    the reflection of its column is an assertion failure, not the default
    ['x']. *)
Lemma keyword_without_separator_asserts :
  startswith_ci "DEFAULT" (lstrip "DEFAULT'x'") = true
  /\ strip (slice_from 7 (lstrip "DEFAULT'x'")) = "'x'"
  /\ column_default (Some "DEFAULT'x'")
     = Raise (AssertionError "Unrecognized default value: DEFAULT'x'")
  /\ In bad_default_row (tblqry_rows legacy_connection "BROKEN")
  /\ fdefault bad_default_row = Some "DEFAULT'x'"
  /\ outcome (@get_columns spec_host_dialect sample_dialect legacy_connection
                "broken")
     = Raise (AssertionError "Unrecognized default value: DEFAULT'x'").
Proof.
  split; [vm_compute; reflexivity|]. split; [vm_compute; reflexivity|].
  split; [vm_compute; reflexivity|].
  split; [vm_compute; left; reflexivity|].
  split; [reflexivity|]. vm_compute. reflexivity.
Qed.

(** C6.  In [get_columns], a catalog row whose base type name maps to an
    integer-family type and whose numeric precision is a non-zero number
    gets the exact type NUMERIC with that precision and with the negated
    catalog scale, without a warning. *)
Theorem get_columns_integer_precision_numeric `{HostDialect}
    (self : FBDialect) (connection : Connection) (table_name : string) :
  (forall names name row coltype p sc,
      names !! rstrip (ftype row) = Some coltype ->
      issubclass_Integer coltype = true ->
      fprec row = Some p -> p <> 0%Z -> fscale row = Some sc ->
      column_type names name row = ([], Ok (NUMERIC (Some p) (- sc))))
  /\ (forall cols,
        outcome (get_columns self connection table_name) = Ok cols ->
        Forall2
          (fun row col =>
             forall coltype p sc,
               self_ischema_names self !! rstrip (ftype row) = Some coltype ->
               issubclass_Integer coltype = true ->
               fprec row = Some p -> p <> 0%Z -> fscale row = Some sc ->
               cd_type col = NUMERIC (Some p) (- sc))
          (tblqry_rows connection (denormalize_name table_name)) cols).
Proof.
  assert (Htype : forall names name row coltype p sc,
      names !! rstrip (ftype row) = Some coltype ->
      issubclass_Integer coltype = true ->
      fprec row = Some p -> p <> 0%Z -> fscale row = Some sc ->
      column_type names name row = ([], Ok (NUMERIC (Some p) (- sc)))).
  { intros names name row coltype p sc Hname Hint Hprec Hp Hscale.
    unfold column_type. rewrite Hname, Hint, Hprec, Hscale.
    cbn [ne_int andb]. apply Z.eqb_neq in Hp. rewrite Hp. cbn [negb].
    unfold ret. do 3 f_equal. lia. }
  split; [exact Htype|].
  intros cols.
  destruct (outcome_get_columns self connection table_name) as [pk ->].
  intros Hcols. apply mapM_Ok in Hcols.
  eapply Forall2_impl; [exact Hcols|].
  intros row col Hrow coltype p sc Hname Hint Hprec Hp Hscale.
  cbv beta in Hrow.
  apply get_columns_row_Ok in Hrow as (_ & Hcoltype & _).
  rewrite (Htype _ _ _ _ _ _ Hname Hint Hprec Hp Hscale) in Hcoltype.
  cbn [outcome snd] in Hcoltype. congruence.
Qed.

Lemma get_columns_integer_precision_numeric_witness :
  column_type ischema_names "price" price_row
  = ([], Ok (NUMERIC (Some 5%Z) (- -2)))
  /\ Forall2
       (fun row col =>
          forall coltype p sc,
            self_ischema_names sample_dialect !! rstrip (ftype row)
            = Some coltype ->
            issubclass_Integer coltype = true ->
            fprec row = Some p -> p <> 0%Z -> fscale row = Some sc ->
            cd_type col = NUMERIC (Some p) (- sc))
       (tblqry_rows legacy_connection
          (@denormalize_name spec_host_dialect "item"))
       [price_column; mixed_case_column; lower_case_column].
Proof.
  destruct (@get_columns_integer_precision_numeric spec_host_dialect
              sample_dialect legacy_connection "item") as [Htype Hcols].
  split.
  - apply (Htype ischema_names "price" price_row SMALLINT 5%Z (-2)%Z).
    + vm_compute. reflexivity.
    + reflexivity.
    + reflexivity.
    + discriminate.
    + reflexivity.
  - apply Hcols. vm_compute. reflexivity.
Defined.

(** ** Capability negotiation *)

Lemma tuple_contains_In (s : string) (t : list VersionItem) :
  tuple_contains s t = true <-> In (VStr s) t.
Proof.
  unfold tuple_contains. rewrite existsb_exists. split.
  - intros (x & Hin & Heq). destruct x as [n|s']; [discriminate Heq|].
    cbn [item_eqb] in Heq. apply String.eqb_eq in Heq. now subst.
  - intros Hin. exists (VStr s). split; [exact Hin|].
    cbn [item_eqb]. apply String.eqb_refl.
Qed.

Lemma tuple_ge_major (major least : Z) (rest : list VersionItem) :
  tuple_ge (VInt major :: rest) [VInt least] = Ok (least <=? major)%Z.
Proof.
  cbn [tuple_ge item_eqb item_ge].
  destruct (major =? least)%Z eqn:Heq; [|reflexivity].
  apply Z.eqb_eq in Heq. subst. rewrite Z.leb_refl. now destruct rest.
Qed.

(** On a version tuple that leads with the major number, the flag is the
    disjunction that the specification states. *)
Lemma detect_version_two_major (major : Z) (rest : list VersionItem) :
  detect_version_two (VInt major :: rest)
  = Ok (tuple_contains "firebird" rest && (2 <=? major)%Z
        || tuple_contains "interbase" rest && (6 <=? major)%Z).
Proof.
  unfold detect_version_two.
  assert (Hskip : forall s,
    tuple_contains s (VInt major :: rest) = tuple_contains s rest)
    by reflexivity.
  rewrite !Hskip, !tuple_ge_major.
  destruct (tuple_contains "firebird" rest), (2 <=? major)%Z;
    cbn [rbind andb orb]; try reflexivity;
    destruct (tuple_contains "interbase" rest); reflexivity.
Qed.

Lemma detect_version_two_legacy (major : Z) (rest : list VersionItem) :
  ~ reports "firebird" 2 major rest ->
  ~ reports "interbase" 6 major rest ->
  detect_version_two (VInt major :: rest) = Ok false.
Proof.
  unfold reports. intros Hfb Hib. rewrite detect_version_two_major.
  f_equal. apply orb_false_iff. split; apply andb_false_iff.
  - destruct (tuple_contains "firebird" rest) eqn:Hc; [|now left].
    right. apply Z.leb_gt. apply tuple_contains_In in Hc.
    destruct (Z.lt_ge_cases major 2) as [Hlt|Hge]; [exact Hlt|].
    destruct Hfb. split; [exact Hc | lia].
  - destruct (tuple_contains "interbase" rest) eqn:Hc; [|now left].
    right. apply Z.leb_gt. apply tuple_contains_In in Hc.
    destruct (Z.lt_ge_cases major 6) as [Hlt|Hge]; [exact Hlt|].
    destruct Hib. split; [exact Hc | lia].
Qed.

(** C1 (as amended).  For every connection whose reported server version
    is neither (firebird, major >= 2) nor (interbase, major >= 6),
    initialization installs a fresh copy of the default type map in which
    the TIMESTAMP entry alone is changed, to the date-only type: TIMESTAMP
    and DATE resolve to DATE, TIME still resolves to TIME, and every other
    entry is that of the default table. *)
Theorem initialize_legacy_type_map (self : FBDialect)
    (connection : Connection) (major : Z) (rest : list VersionItem) :
  reported_version connection = VInt major :: rest ->
  ~ reports "firebird" 2 major rest ->
  ~ reports "interbase" 6 major rest ->
  exists self',
    initialize self connection = Ok self'
    /\ _version_two self' = false
    /\ self_ischema_names self' = <["TIMESTAMP" := DATE]> ischema_names
    /\ self_ischema_names self' !! "TIMESTAMP" = Some DATE
    /\ self_ischema_names self' !! "DATE" = Some DATE
    /\ self_ischema_names self' !! "TIME" = Some TIME
    /\ (forall key, key <> "TIMESTAMP" ->
          self_ischema_names self' !! key = ischema_names !! key)
    /\ self_colspecs self' = [(DateTime, DATE)].
Proof.
  intros Hversion Hfb Hib. unfold initialize.
  rewrite Hversion, (detect_version_two_legacy major rest Hfb Hib).
  cbn [rbind]. eexists. split; [reflexivity|].
  cbn [_version_two self_ischema_names self_colspecs].
  split; [reflexivity|]. split; [reflexivity|].
  split; [apply lookup_insert_eq|].
  split; [rewrite lookup_insert_ne by discriminate; vm_compute; reflexivity|].
  split; [rewrite lookup_insert_ne by discriminate; vm_compute; reflexivity|].
  split; [|reflexivity].
  intros key Hkey. apply lookup_insert_ne. congruence.
Qed.

Lemma initialize_legacy_type_map_witness :
  exists self',
    initialize sample_dialect legacy_connection = Ok self'
    /\ _version_two self' = false
    /\ self_ischema_names self' = <["TIMESTAMP" := DATE]> ischema_names
    /\ self_ischema_names self' !! "TIMESTAMP" = Some DATE
    /\ self_ischema_names self' !! "DATE" = Some DATE
    /\ self_ischema_names self' !! "TIME" = Some TIME
    /\ (forall key, key <> "TIMESTAMP" ->
          self_ischema_names self' !! key = ischema_names !! key)
    /\ self_colspecs self' = [(DateTime, DATE)].
Proof.
  apply (initialize_legacy_type_map sample_dialect legacy_connection 1
           [VInt 5; VInt 0; VStr "firebird"]).
  - reflexivity.
  - unfold reports. intros [_ Hmajor]. lia.
  - unfold reports. intros [_ Hmajor]. lia.
Defined.

(** C1 as stated fails: on a Firebird 1.5 connection the installed type
    map still resolves the date/time catalog type TIME to TIME, which is
    not the date-only type. *)
Lemma legacy_TIME_not_date_only :
  (exists self',
      initialize sample_dialect legacy_connection = Ok self'
      /\ _version_two self' = false
      /\ self_ischema_names self' !! "TIME" = Some TIME)
  /\ TIME <> DATE.
Proof.
  split; [|discriminate]. eexists. split; [reflexivity|].
  split; [reflexivity|]. vm_compute. reflexivity.
Qed.

(** ** Table existence *)

Lemma has_table_rows_first (connection : Connection) (tbl_name : string) :
  (match first (has_table_rows connection tbl_name) with
   | Some _ => true
   | None => false
   end) = true
  <-> In tbl_name (rdb_relations connection).
Proof.
  unfold has_table_rows.
  destruct (existsb (String.eqb tbl_name) (rdb_relations connection))
    eqn:Hex; cbn [first head].
  - split; [intros _|reflexivity].
    apply existsb_exists in Hex as (x & Hin & Heq).
    apply String.eqb_eq in Heq. now subst.
  - split; [discriminate|]. intros Hin.
    assert (Htrue : existsb (String.eqb tbl_name) (rdb_relations connection)
                    = true).
    { apply existsb_exists. exists tbl_name. split; [exact Hin|].
      apply String.eqb_refl. }
    congruence.
Qed.

(** C7.  After initialization the maximum identifier length is 31 when the
    engine version is below 4.0 and 252 otherwise; [has_table] returns
    False without issuing a query for a longer name, and for a name within
    the limit it issues the one existence query and returns True exactly
    when the relation catalog has the denormalized name. *)
Theorem has_table_identifier_limit `{HostDialect} (self self' : FBDialect)
    (connection : Connection) (table_name : string) :
  initialize self connection = Ok self' ->
  let limit :=
    if SFltb (engine_version connection) float_4_0 then 31%Z else 252%Z in
  max_identifier_length self' = limit
  /\ ((limit < Z.of_nat (String.length table_name))%Z ->
      has_table self' connection table_name = ([], Ok false))
  /\ ((Z.of_nat (String.length table_name) <= limit)%Z ->
      events (has_table self' connection table_name)
      = [Execute has_table_tblqry [denormalize_name table_name]]
      /\ exists found,
           outcome (has_table self' connection table_name) = Ok found
           /\ (found = true
               <-> In (denormalize_name table_name)
                     (rdb_relations connection))).
Proof.
  intros Hinit limit.
  assert (Hmax : max_identifier_length self' = limit).
  { unfold initialize in Hinit.
    destruct (detect_version_two (reported_version connection));
      [|discriminate Hinit].
    cbn [rbind] in Hinit. injection Hinit as <-. reflexivity. }
  split; [exact Hmax|]. unfold has_table. rewrite Hmax. split.
  - intros Hlong. apply Z.ltb_lt in Hlong. rewrite Hlong. reflexivity.
  - intros Hshort. apply Z.ltb_ge in Hshort. rewrite Hshort.
    split; [reflexivity|]. eexists. split; [reflexivity|].
    apply has_table_rows_first.
Qed.

Lemma has_table_identifier_limit_witness :
  exists self',
    initialize sample_dialect legacy_connection = Ok self'
    /\ max_identifier_length self' = 31%Z
    /\ @has_table spec_host_dialect self' legacy_connection
         "a_table_name_of_more_than_31_chars" = ([], Ok false)
    /\ outcome (@has_table spec_host_dialect self' legacy_connection "item")
       = Ok true.
Proof.
  destruct (initialize sample_dialect legacy_connection) as [self'|e] eqn:Hinit;
    [|discriminate Hinit].
  exists self'. split; [reflexivity|].
  destruct (@has_table_identifier_limit spec_host_dialect sample_dialect
              self' legacy_connection "a_table_name_of_more_than_31_chars"
              Hinit) as (Hmax & Hlong & _).
  destruct (@has_table_identifier_limit spec_host_dialect sample_dialect
              self' legacy_connection "item" Hinit)
    as (_ & _ & Hshort).
  split; [exact Hmax|]. split.
  - apply Hlong. vm_compute. reflexivity.
  - destruct Hshort as (_ & found & Hout & Hfound);
      [vm_compute; discriminate|].
    rewrite Hout. f_equal. apply Hfound. vm_compute. left. reflexivity.
Defined.

(** ** SQL rendering *)

Section RenderingFacts.

Context {Clause : Type} `{HostCompiler Clause}.

Lemma visit_VARCHAR_no_length (type_ : StringType) :
  truthy (type_length type_) = false ->
  visit_VARCHAR type_
  = Raise (CompileError "VARCHAR requires a length on dialect firebird").
Proof. intros Hlen. unfold visit_VARCHAR. rewrite Hlen. reflexivity. Qed.

Lemma visit_computed_column_persisted (generated : Computed Clause) :
  persisted generated <> None ->
  exists msg, visit_computed_column generated = Raise (CompileError msg).
Proof.
  intros Hp. unfold visit_computed_column.
  destruct (persisted generated); [eauto | contradiction].
Qed.

(** The pre-column text is the generic one followed by the FIRST and
    SKIP fragments, in that order. *)
Lemma get_select_precolumns_fragments (select : Select Clause) :
  get_select_precolumns select
  = (super_get_select_precolumns select
     ++ match _limit_clause select with
        | Some limit => "FIRST (" ++ process limit ++ ") "
        | None => ""
        end)
    ++ match _offset_clause select with
       | Some offset => "SKIP (" ++ process offset ++ ") "
       | None => ""
       end.
Proof.
  unfold get_select_precolumns.
  destruct (_limit_clause select), (_offset_clause select);
    rewrite ?append_nil_r; reflexivity.
Qed.

Lemma column_first_stage (column : Column Clause) :
  renders column ->
  exists text,
    match computed column with
    | Some generated =>
        rbind (visit_computed_column generated) (fun text =>
          Ok (format_column column ++ " " ++ str_type (type column)
              ++ " " ++ text))
    | None =>
        rbind (type_compiler_process (type column)) (fun text =>
          Ok (format_column column ++ " " ++ text))
    end = Ok text.
Proof.
  unfold renders. destruct (computed column) as [generated|].
  - intros Hp. unfold visit_computed_column. rewrite Hp. cbn [rbind]. eauto.
  - intros Htype. destruct (type column) as [t|t| | | | |name];
      cbn [type_compiler_process rbind]; eauto.
    unfold visit_VARCHAR. rewrite (Htype t eq_refl). cbn [negb rbind]. eauto.
Qed.

End RenderingFacts.

(** C4.  Each of the three unsupported constructs is rejected with an
    error when it is compiled, so that no SQL text is produced: CREATE
    SEQUENCE for a sequence with a start value or an increment, a computed
    column with a persistence setting, and a VARCHAR type with no length;
    the errors of the last two also reject the column specification they
    occur in. *)
Theorem unsupported_constructs_rejected {Clause : Type}
    `{HostCompiler Clause} :
  (forall dialect element,
      start element <> None \/ increment element <> None ->
      exists msg,
        visit_create_sequence dialect element
        = Raise (NotImplementedError msg))
  /\ (forall generated : Computed Clause,
        persisted generated <> None ->
        exists msg, visit_computed_column generated = Raise (CompileError msg))
  /\ (forall type_,
        type_length type_ = None ->
        exists msg, visit_VARCHAR type_ = Raise (CompileError msg))
  /\ (forall (column : Column Clause) generated,
        computed column = Some generated ->
        persisted generated <> None ->
        exists msg, get_column_specification column = Raise (CompileError msg))
  /\ (forall (column : Column Clause) type_,
        computed column = None ->
        type column = VARCHAR_type type_ ->
        type_length type_ = None ->
        exists msg, get_column_specification column = Raise (CompileError msg)).
Proof.
  split; [|split; [|split; [|split]]].
  - intros dialect element Hset. unfold visit_create_sequence.
    destruct (start element); [eauto|].
    destruct (increment element); [eauto|].
    destruct Hset as [Hs|Hi]; contradiction.
  - exact visit_computed_column_persisted.
  - intros type_ Hlen. eexists. apply visit_VARCHAR_no_length.
    rewrite Hlen. reflexivity.
  - intros column generated Hcomputed Hp.
    destruct (visit_computed_column_persisted generated Hp) as [msg Hmsg].
    exists msg. unfold get_column_specification.
    rewrite Hcomputed, Hmsg. reflexivity.
  - intros column type_ Hcomputed Htype Hlen. eexists.
    unfold get_column_specification.
    rewrite Hcomputed, Htype. cbn [type_compiler_process].
    rewrite visit_VARCHAR_no_length by (rewrite Hlen; reflexivity).
    reflexivity.
Qed.

Lemma unsupported_constructs_rejected_witness :
  (exists msg,
      @visit_create_sequence Z sample_host_compiler sample_dialect
        {| sequence_name := "s"; start := Some 1%Z; increment := None |}
      = Raise (NotImplementedError msg))
  /\ (exists msg,
        @visit_computed_column Z sample_host_compiler
          {| sqltext := 1%Z; persisted := Some true |}
        = Raise (CompileError msg))
  /\ (exists msg,
        @visit_VARCHAR Z sample_host_compiler
          {| type_length := None; charset := None |}
        = Raise (CompileError msg)).
Proof.
  destruct (@unsupported_constructs_rejected Z sample_host_compiler)
    as (Hseq & Hcomputed & Hvarchar & _).
  split; [|split].
  - apply Hseq. left. discriminate.
  - apply Hcomputed. discriminate.
  - apply Hvarchar. reflexivity.
Defined.

(** C5 fails on the code at a distinct select: with limit 10 and offset 5
    the pre-column text is the DISTINCT keyword of the generic hook
    followed by FIRST and SKIP, so FIRST does not come immediately after
    SELECT; the trailing limit clause is empty. *)
Theorem distinct_precedes_first_skip :
  @get_select_precolumns Z sample_host_compiler distinct_page
  = "DISTINCT FIRST (10) SKIP (5) "
  /\ @super_get_select_precolumns Z sample_host_compiler distinct_page
     = "DISTINCT "
  /\ @limit_clause Z distinct_page = "".
Proof. split; [|split]; vm_compute; reflexivity. Qed.

(** C9.  In the column specification, a column whose nullable attribute is
    not None and that is a primary-key column, or has a Sequence as its
    default, or has autoincrement set to True, is rendered with a trailing
    NOT NULL, whatever the value of nullable; the specification is
    rendered whenever the column's type or computed clause is. *)
Theorem column_specification_not_null {Clause : Type} `{HostCompiler Clause}
    (column : Column Clause) (is_nullable : bool) :
  nullable column = Some is_nullable ->
  primary_key column = true \/ default_is_Sequence column = true
  \/ autoincrement column = auto_True ->
  (renders column ->
   exists body, get_column_specification column = Ok (body ++ " NOT NULL"))
  /\ (forall text,
        get_column_specification column = Ok text ->
        exists body, text = body ++ " NOT NULL").
Proof.
  intros Hnullable Hforced.
  assert (Hcond : negb is_nullable || primary_key column
                  || default_is_Sequence column
                  || autoincrement_is_True column = true).
  { destruct Hforced as [Hpk|[Hseq|Hauto]].
    - rewrite Hpk. now rewrite orb_true_r.
    - rewrite Hseq. now rewrite orb_true_r.
    - unfold autoincrement_is_True. rewrite Hauto. now rewrite orb_true_r. }
  unfold get_column_specification. rewrite Hnullable, Hcond. split.
  - intros Hrenders. destruct (column_first_stage column Hrenders) as [t ->].
    cbn [rbind]. eexists. reflexivity.
  - intros text.
    match goal with
    | |- rbind ?stage _ = _ -> _ => destruct stage as [t|e]
    end; cbn [rbind]; [|discriminate].
    intros [= <-]. eexists. reflexivity.
Qed.

Lemma column_specification_not_null_witness :
  (exists body,
      @get_column_specification Z sample_host_compiler sample_column
      = Ok (body ++ " NOT NULL"))
  /\ @get_column_specification Z sample_host_compiler sample_column
     = Ok "id INTEGER NOT NULL".
Proof.
  destruct (@column_specification_not_null Z sample_host_compiler
              sample_column true eq_refl (or_introl eq_refl))
    as [Hrenders _].
  split; [|vm_compute; reflexivity].
  apply Hrenders. unfold renders. cbn. intros type_ Htype. discriminate Htype.
Defined.

(** C10.  Before initialization the generation flag is True, so an
    uninitialized dialect renders with the modern profile: aliases use the
    generic rendering, and sequences are created and dropped with CREATE
    SEQUENCE and DROP SEQUENCE, never with CREATE GENERATOR or DROP
    GENERATOR. *)
Theorem uninitialized_dialect_modern_profile {Clause : Type}
    `{HostCompiler Clause} (host_max_identifier_length : Z)
    (ctor_implicit_returning : option bool) (alias : Alias Clause)
    (asfrom : bool) (element : Sequence) :
  let dialect :=
    new_dialect host_max_identifier_length ctor_implicit_returning in
  _version_two dialect = true
  /\ visit_alias dialect alias asfrom = super_visit_alias alias asfrom
  /\ visit_drop_sequence dialect element
     = "DROP SEQUENCE " ++ format_sequence element
  /\ (start element = None -> increment element = None ->
      visit_create_sequence dialect element
      = Ok ("CREATE SEQUENCE " ++ format_sequence element))
  /\ (forall text,
        visit_create_sequence dialect element = Ok text ->
        text = "CREATE SEQUENCE " ++ format_sequence element).
Proof.
  intros dialect. split; [reflexivity|]. split; [reflexivity|].
  split; [reflexivity|]. unfold visit_create_sequence. split.
  - intros -> ->. reflexivity.
  - intros text. destruct (start element); [discriminate|].
    destruct (increment element); [discriminate|].
    cbn. now intros [= <-].
Qed.

Lemma uninitialized_dialect_modern_profile_witness :
  @visit_create_sequence Z sample_host_compiler sample_dialect sample_sequence
  = Ok "CREATE SEQUENCE item_gen"
  /\ @visit_drop_sequence Z sample_host_compiler sample_dialect sample_sequence
     = "DROP SEQUENCE item_gen"
  /\ @visit_alias Z sample_host_compiler sample_dialect
       {| alias_name := "t"; is_truncated_label := false; element := 7%Z |}
       true
     = "7 AS t".
Proof.
  destruct (@uninitialized_dialect_modern_profile Z sample_host_compiler
              9999 None
              {| alias_name := "t"; is_truncated_label := false;
                 element := 7%Z |} true sample_sequence)
    as (_ & Halias & Hdrop & Hcreate & _).
  split; [|split].
  - exact (Hcreate eq_refl eq_refl).
  - exact Hdrop.
  - exact Halias.
Defined.

(** * Further properties of the code *)

(** ** Pre-column text and capability negotiation *)

Lemma prefix_append (a b : string) : String.prefix a (a ++ b) = true.
Proof.
  induction a as [|c a IH]; push_append; cbn [String.prefix].
  - now destruct b.
  - destruct (ascii_dec c c); [exact IH | contradiction].
Qed.

(** X1.  For every select, the pre-column text is the generic hook's text
    followed by the FIRST fragment when a limit is present and then the
    SKIP fragment when an offset is present; the generic text is always a
    prefix of it, and with neither clause it is the whole text. *)
Theorem select_precolumns_extend_generic_text {Clause : Type}
    `{HostCompiler Clause} (select : Select Clause) :
  get_select_precolumns select
  = (super_get_select_precolumns select
     ++ match _limit_clause select with
        | Some limit => "FIRST (" ++ process limit ++ ") "
        | None => ""
        end)
    ++ match _offset_clause select with
       | Some offset => "SKIP (" ++ process offset ++ ") "
       | None => ""
       end
  /\ String.prefix (super_get_select_precolumns select)
       (get_select_precolumns select) = true
  /\ (_limit_clause select = None -> _offset_clause select = None ->
      get_select_precolumns select = super_get_select_precolumns select).
Proof.
  assert (Hshape := get_select_precolumns_fragments select).
  split; [exact Hshape|]. split.
  - rewrite Hshape, append_assoc_string. apply prefix_append.
  - intros Hlimit Hoffset. rewrite Hshape, Hlimit, Hoffset.
    now rewrite !append_nil_r.
Qed.

Lemma select_precolumns_extend_generic_text_witness :
  @get_select_precolumns Z sample_host_compiler
    {| _limit_clause := None; _offset_clause := None; _distinct := true |}
  = "DISTINCT ".
Proof.
  destruct (@select_precolumns_extend_generic_text Z sample_host_compiler
              {| _limit_clause := None; _offset_clause := None;
                 _distinct := true |}) as (_ & _ & Hplain).
  exact (Hplain eq_refl eq_refl).
Defined.

Lemma detect_version_two_modern (major : Z) (rest : list VersionItem) :
  reports "firebird" 2 major rest \/ reports "interbase" 6 major rest ->
  detect_version_two (VInt major :: rest) = Ok true.
Proof.
  unfold reports. intros Hmodern. rewrite detect_version_two_major.
  f_equal. apply orb_true_iff.
  destruct Hmodern as [[Hin Hge]|[Hin Hge]]; [left|right];
    apply andb_true_iff; split;
    solve [ now apply tuple_contains_In | now apply Z.leb_le ].
Qed.

(** X2.  For a connection whose version tuple leads with the major number
    and reports firebird with major at least 2 or interbase with major at
    least 6, initialization sets the generation flag and leaves the
    dialect's type map and column specifications as they were; implicit
    returning is what the constructor stored, and on by default. *)
Theorem initialize_modern_keeps_type_map (self : FBDialect)
    (connection : Connection) (major : Z) (rest : list VersionItem) :
  reported_version connection = VInt major :: rest ->
  reports "firebird" 2 major rest \/ reports "interbase" 6 major rest ->
  exists self',
    initialize self connection = Ok self'
    /\ _version_two self' = true
    /\ self_ischema_names self' = self_ischema_names self
    /\ self_colspecs self' = self_colspecs self
    /\ implicit_returning self'
       = Some (default true (implicit_returning self))
    /\ server_version_info self' = VInt major :: rest.
Proof.
  intros Hversion Hmodern. unfold initialize.
  rewrite Hversion, (detect_version_two_modern major rest Hmodern).
  cbn [rbind]. eexists. split; [reflexivity|]. repeat split.
Qed.

Lemma initialize_modern_keeps_type_map_witness :
  exists self',
    initialize sample_dialect modern_connection = Ok self'
    /\ _version_two self' = true
    /\ self_ischema_names self' = self_ischema_names sample_dialect
    /\ self_colspecs self' = self_colspecs sample_dialect
    /\ implicit_returning self'
       = Some (default true (implicit_returning sample_dialect))
    /\ server_version_info self' = [VInt 5; VInt 0; VInt 0; VStr "firebird"].
Proof.
  apply (initialize_modern_keeps_type_map sample_dialect modern_connection 5
           [VInt 0; VInt 0; VStr "firebird"]).
  - reflexivity.
  - left. unfold reports. split; [|lia]. cbn. tauto.
Defined.

(** X3.  Initialization is idempotent: initializing the resulting dialect
    again on the same connection gives the same dialect state. *)
Theorem initialize_idempotent (self self' : FBDialect)
    (connection : Connection) :
  initialize self connection = Ok self' ->
  initialize self' connection = Ok self'.
Proof.
  unfold initialize.
  destruct (detect_version_two (reported_version connection)) as [v2|e];
    [|discriminate].
  cbn [rbind]. intros [= <-].
  cbn [self_ischema_names self_colspecs implicit_returning].
  destruct v2; cbn [andb default]; reflexivity.
Qed.

Lemma initialize_idempotent_witness :
  exists self',
    initialize sample_dialect legacy_connection = Ok self'
    /\ initialize self' legacy_connection = Ok self'.
Proof.
  destruct (initialize sample_dialect legacy_connection) as [self'|e]
    eqn:Hinit; [|discriminate Hinit].
  exists self'. split; [reflexivity|].
  exact (initialize_idempotent sample_dialect self' legacy_connection Hinit).
Defined.

(** X4.  The legacy profile is never undone: once a dialect has been
    initialized on a legacy connection, initializing it on a modern
    connection sets the generation flag but leaves TIMESTAMP mapped to the
    date-only type, the legacy column specifications in place and implicit
    returning off. *)
Theorem legacy_tables_survive_modern_connection (self legacy modern : FBDialect)
    (first_connection second_connection : Connection) :
  initialize self first_connection = Ok legacy ->
  _version_two legacy = false ->
  initialize legacy second_connection = Ok modern ->
  _version_two modern = true ->
  self_ischema_names modern = <["TIMESTAMP" := DATE]> ischema_names
  /\ self_ischema_names modern !! "TIMESTAMP" = Some DATE
  /\ self_colspecs modern = [(DateTime, DATE)]
  /\ implicit_returning modern = Some false.
Proof.
  unfold initialize.
  destruct (detect_version_two (reported_version first_connection))
    as [v1|e1]; [|discriminate].
  cbn [rbind]. intros [= <-]. cbn [_version_two]. intros ->.
  destruct (detect_version_two (reported_version second_connection))
    as [v2|e2]; [|discriminate].
  cbn [rbind]. intros [= <-]. cbn [_version_two]. intros ->.
  cbn [self_ischema_names self_colspecs implicit_returning andb default].
  split; [reflexivity|]. split; [apply lookup_insert_eq|].
  split; reflexivity.
Qed.

Lemma legacy_tables_survive_modern_connection_witness :
  exists legacy modern,
    initialize sample_dialect legacy_connection = Ok legacy
    /\ initialize legacy modern_connection = Ok modern
    /\ _version_two modern = true
    /\ self_ischema_names modern !! "TIMESTAMP" = Some DATE
    /\ implicit_returning modern = Some false.
Proof.
  destruct (initialize sample_dialect legacy_connection) as [legacy|e]
    eqn:Hfirst; [|discriminate Hfirst].
  destruct (initialize legacy modern_connection) as [modern|e]
    eqn:Hsecond;
    [|unfold initialize in Hsecond; discriminate Hsecond].
  assert (Hlegacy : _version_two legacy = false).
  { unfold initialize in Hfirst. cbn in Hfirst. now injection Hfirst as <-. }
  assert (Hmodern : _version_two modern = true).
  { unfold initialize in Hsecond. cbn in Hsecond. now injection Hsecond as <-. }
  destruct (legacy_tables_survive_modern_connection sample_dialect legacy
              modern legacy_connection modern_connection Hfirst Hlegacy
              Hsecond Hmodern) as (_ & Htimestamp & _ & Hreturning).
  exists legacy, modern. repeat split; assumption.
Defined.

(** X5.  The product name decides before any number is compared: a version
    tuple that names neither firebird nor interbase gives the legacy
    generation whatever its numbers, and a tuple that names firebird but
    leads with a string makes initialization fail with a TypeError. *)
Theorem initialize_reads_product_name_first (self : FBDialect)
    (connection : Connection) :
  (tuple_contains "firebird" (reported_version connection) = false ->
   tuple_contains "interbase" (reported_version connection) = false ->
   exists self',
     initialize self connection = Ok self' /\ _version_two self' = false)
  /\ (forall s rest,
        reported_version connection = VStr s :: rest ->
        tuple_contains "firebird" (VStr s :: rest) = true ->
        initialize self connection = Raise TypeError).
Proof.
  split.
  - intros Hfb Hib. unfold initialize, detect_version_two.
    rewrite Hfb, Hib. cbn [rbind]. eexists. split; reflexivity.
  - intros s rest Hversion Hfb. unfold initialize, detect_version_two.
    rewrite Hversion, Hfb. reflexivity.
Qed.

Lemma initialize_reads_product_name_first_witness :
  (exists self',
      initialize sample_dialect
        {| reported_version := [VInt 9; VInt 1; VStr "yaffil"];
           engine_version := float_5_0; rdb_relations := [];
           keyqry_rows := fun _ _ => []; genqry_rows := fun _ _ => [];
           tblqry_rows := fun _ => [] |} = Ok self'
      /\ _version_two self' = false)
  /\ initialize sample_dialect
       {| reported_version := [VStr "firebird"; VInt 3];
          engine_version := float_5_0; rdb_relations := [];
          keyqry_rows := fun _ _ => []; genqry_rows := fun _ _ => [];
          tblqry_rows := fun _ => [] |} = Raise TypeError.
Proof.
  split.
  - apply initialize_reads_product_name_first; reflexivity.
  - eapply initialize_reads_product_name_first; reflexivity.
Defined.

(** ** Reflected columns: types, failures and sequences *)

Lemma mapM_Raise_inv {A B : Type} (f : A -> M B) (l : list A) (e : PyError) :
  outcome (mapM f l) = Raise e ->
  exists a, In a l /\ outcome (f a) = Raise e.
Proof.
  induction l as [|a l IH]; cbn [mapM]; [discriminate|].
  rewrite outcome_bind. destruct (outcome (f a)) as [b|e0] eqn:Hfa.
  - rewrite outcome_bind. destruct (outcome (mapM f l)) as [bs|e1] eqn:Hl;
      [discriminate|].
    intros [= <-]. destruct (IH eq_refl) as (a' & Hin & Ha').
    exists a'. split; [now right | exact Ha'].
  - intros [= <-]. exists a. split; [now left | exact Hfa].
Qed.

Lemma events_mapM_Forall {A B : Type} (P : Event -> Prop) (f : A -> M B)
    (l : list A) :
  (forall a, In a l -> Forall P (events (f a))) ->
  Forall P (events (mapM f l)).
Proof.
  induction l as [|a l IH]; intros Hall; cbn [mapM].
  - constructor.
  - rewrite events_bind.
    assert (Ha : Forall P (events (f a))) by (apply Hall; now left).
    destruct (outcome (f a)) as [b|e]; [|exact Ha].
    apply Forall_app. split; [exact Ha|].
    rewrite events_bind.
    assert (Hl : Forall P (events (mapM f l)))
      by (apply IH; intros a' Hin; apply Hall; now right).
    destruct (outcome (mapM f l)) as [bs|e]; [|exact Hl].
    apply Forall_app. split; [exact Hl | constructor].
Qed.

(** The type computation fails in one way only. *)
Lemma column_type_Raise (names : gmap string TypeEngine) (name : string)
    (row : FieldRow) (e : PyError) :
  outcome (column_type names name row) = Raise e <->
  e = TypeError
  /\ exists coltype,
       names !! rstrip (ftype row) = Some coltype
       /\ issubclass_Integer coltype = true
       /\ ne_int (fprec row) 0 = true
       /\ fscale row = None.
Proof.
  unfold column_type.
  destruct (names !! rstrip (ftype row)) as [coltype|] eqn:Hlookup.
  - destruct (issubclass_Integer coltype && ne_int (fprec row) 0) eqn:Hint.
    + apply andb_true_iff in Hint as [Hsub Hprec].
      destruct (fscale row) as [scale|] eqn:Hscale; cbn [ret raise outcome snd].
      * split; [discriminate|]. intros (_ & c & _ & _ & _ & Hnone).
        discriminate Hnone.
      * split.
        -- intros [= <-]. split; [reflexivity|]. exists coltype. auto.
        -- intros [-> _]. reflexivity.
    + split.
      * repeat match goal with
               | |- context [if ?b then _ else _] => destruct b
               end; cbn [ret outcome snd]; discriminate.
      * intros (_ & c & [= <-] & Hsub & Hprec & _).
        rewrite Hsub, Hprec in Hint. discriminate Hint.
  - rewrite outcome_bind. cbn [emit ret outcome snd]. split; [discriminate|].
    intros (_ & c & Hc & _). discriminate Hc.
Qed.

(** The only events of the type computation are warnings. *)
Lemma column_type_events (names : gmap string TypeEngine) (name : string)
    (row : FieldRow) :
  Forall (fun ev => exists msg, ev = Warn msg)
    (events (column_type names name row)).
Proof.
  unfold column_type.
  destruct (names !! rstrip (ftype row)) as [coltype|].
  - repeat match goal with
           | |- context [if ?b then _ else _] => destruct b
           | |- context [match fscale row with _ => _ end] =>
               destruct (fscale row)
           end; constructor.
  - cbn. constructor; [eauto | constructor].
Qed.

Section ColumnFacts.

Context `{HostDialect}.

(** [get_columns] with the key columns it passes to the loop body. *)
Lemma get_columns_unfold (self : FBDialect) (connection : Connection)
    (table_name : string) :
  get_columns self connection table_name
  = bind (emit (Execute pk_keyqry ["PRIMARY KEY"; denormalize_name table_name]))
      (fun _ =>
         bind (emit (Execute columns_tblqry [denormalize_name table_name]))
           (fun _ =>
              mapM (get_columns_row self connection
                      (denormalize_name table_name)
                      (map normalize_name
                         (keyqry_rows connection "PRIMARY KEY"
                            (denormalize_name table_name))))
                (tblqry_rows connection (denormalize_name table_name)))).
Proof.
  unfold get_columns, get_pk_constraint. cbn [emit ret bind].
  destruct (mapM _ _) as [evs r]. reflexivity.
Qed.

Lemma get_columns_row_Raise (self : FBDialect) (connection : Connection)
    (tablename : string) (pkey_cols : list string) (row : FieldRow)
    (e : PyError) :
  outcome (get_columns_row self connection tablename pkey_cols row) = Raise e ->
  outcome (column_type (self_ischema_names self)
             (normalize_name (fname row)) row) = Raise e
  \/ column_default (fdefault row) = Raise e.
Proof.
  unfold get_columns_row. cbv zeta. rewrite outcome_bind.
  destruct (outcome (column_type _ _ row)) as [coltype|e0];
    [|intros [= <-]; left; reflexivity].
  rewrite outcome_bind. cbn [outcome snd].
  destruct (column_default (fdefault row)) as [defvalue|e0];
    [|intros [= <-]; right; reflexivity].
  rewrite outcome_bind.
  assert (Hseq : exists seq,
    outcome (match pkey_cols with
             | [pkey] =>
                 if (normalize_name (fname row) =? pkey)%string
                 then get_column_sequence connection tablename
                        (normalize_name (fname row))
                 else ret None
             | _ => ret None
             end) = Ok seq).
  { destruct pkey_cols as [|pkey [|? ?]]; try (eexists; reflexivity).
    destruct (_ =? _)%string; [|eexists; reflexivity].
    apply outcome_get_column_sequence. }
  destruct Hseq as [seq ->]. discriminate.
Qed.

(** The sequence entry of a successful pass of the loop body. *)
Lemma get_columns_row_sequence (self : FBDialect) (connection : Connection)
    (tablename : string) (pkey_cols : list string) (row : FieldRow)
    (col : ColumnDict) :
  outcome (get_columns_row self connection tablename pkey_cols row) = Ok col ->
  cd_sequence col
  = match pkey_cols with
    | [pkey] =>
        if (normalize_name (fname row) =? pkey)%string
        then option_map normalize_name
               (first (genqry_rows connection (denormalize_name tablename)
                         (denormalize_name (normalize_name (fname row)))))
        else None
    | _ => None
    end.
Proof.
  unfold get_columns_row. rewrite outcome_bind.
  destruct (outcome (column_type _ _ row)) as [coltype|e]; [|discriminate].
  rewrite outcome_bind. cbn [outcome snd].
  destruct (column_default (fdefault row)) as [defvalue|e]; [|discriminate].
  rewrite outcome_bind.
  destruct pkey_cols as [|pkey [|? ?]]; cbn [ret outcome snd];
    try (intros [= <-]; reflexivity).
  destruct (_ =? _)%string; cbn [ret outcome snd];
    [|intros [= <-]; reflexivity].
  unfold get_column_sequence. rewrite outcome_bind.
  cbn [emit ret outcome snd]. intros [= <-]. cbn [cd_sequence].
  destruct (first _); reflexivity.
Qed.

Lemma get_columns_row_events_no_key (self : FBDialect)
    (connection : Connection) (tablename : string) (pkey_cols : list string)
    (row : FieldRow) :
  length pkey_cols <> 1%nat ->
  Forall (fun ev => exists msg, ev = Warn msg)
    (events (get_columns_row self connection tablename pkey_cols row)).
Proof.
  intros Hkey. unfold get_columns_row. rewrite events_bind.
  pose proof (column_type_events (self_ischema_names self)
                (normalize_name (fname row)) row) as Htype.
  destruct (outcome (column_type _ _ row)) as [coltype|e]; [|exact Htype].
  apply Forall_app. split; [exact Htype|].
  rewrite events_bind. cbn [outcome events fst snd].
  destruct (column_default (fdefault row)) as [defvalue|e]; [|constructor].
  cbn [app]. rewrite events_bind.
  destruct pkey_cols as [|pkey [|? ?]]; cbn; try constructor.
  now contradiction Hkey.
Qed.

End ColumnFacts.

(** X6.  A catalog type missing from the dialect's type map never aborts
    the reflection of a column: the type computation succeeds with the null
    type after exactly one warning, which names the type without trailing
    blanks and the normalized column name; the row then fails or succeeds
    with its default value alone, and a reported descriptor carries the
    null type. *)
Theorem unknown_type_warns_and_continues `{HostDialect} (self : FBDialect)
    (connection : Connection) (tablename : string) (pkey_cols : list string)
    (row : FieldRow) :
  self_ischema_names self !! rstrip (ftype row) = None ->
  column_type (self_ischema_names self) (normalize_name (fname row)) row
  = ([Warn ("Did not recognize type '" ++ rstrip (ftype row)
            ++ "' of column '" ++ normalize_name (fname row) ++ "'")],
     Ok NULLTYPE)
  /\ (forall defvalue,
        column_default (fdefault row) = Ok defvalue ->
        exists col,
          outcome (get_columns_row self connection tablename pkey_cols row)
          = Ok col
          /\ cd_type col = NULLTYPE /\ cd_default col = defvalue)
  /\ (forall e,
        outcome (get_columns_row self connection tablename pkey_cols row)
        = Raise e ->
        column_default (fdefault row) = Raise e).
Proof.
  intros Hunknown.
  assert (Htype :
    column_type (self_ischema_names self) (normalize_name (fname row)) row
    = ([Warn ("Did not recognize type '" ++ rstrip (ftype row)
              ++ "' of column '" ++ normalize_name (fname row) ++ "'")],
       Ok NULLTYPE)).
  { unfold column_type. rewrite Hunknown. reflexivity. }
  split; [exact Htype|]. split.
  - intros defvalue Hdef.
    destruct (get_columns_row_total self connection tablename pkey_cols row
                NULLTYPE defvalue) as [col Hcol];
      [now rewrite Htype | exact Hdef |].
    exists col. split; [exact Hcol|].
    apply get_columns_row_Ok in Hcol as (_ & Hty & Hdf & _).
    rewrite Htype in Hty. cbn [outcome snd] in Hty.
    split; congruence.
  - intros e Hraise.
    apply get_columns_row_Raise in Hraise as [Hraise|Hraise];
      [|exact Hraise].
    rewrite Htype in Hraise. discriminate Hraise.
Qed.

Lemma unknown_type_warns_and_continues_witness :
  column_type (self_ischema_names sample_dialect)
    (@normalize_name spec_host_dialect (fname (sample_row "GEO" "POINT3D  ")))
    (sample_row "GEO" "POINT3D  ")
  = ([Warn ("Did not recognize type '"
            ++ rstrip (ftype (sample_row "GEO" "POINT3D  "))
            ++ "' of column '"
            ++ @normalize_name spec_host_dialect
                 (fname (sample_row "GEO" "POINT3D  ")) ++ "'")],
     Ok NULLTYPE).
Proof.
  assert (Hunknown :
    self_ischema_names sample_dialect
      !! rstrip (ftype (sample_row "GEO" "POINT3D  ")) = None)
    by (vm_compute; reflexivity).
  destruct (@unknown_type_warns_and_continues spec_host_dialect
              sample_dialect legacy_connection "ITEM" []
              (sample_row "GEO" "POINT3D  ") Hunknown) as [Htype _].
  exact Htype.
Defined.

(** X7.  [get_columns] fails in two ways only.  When it raises, some row of
    the column query has either an integer-family type with a precision
    other than zero and a NULL scale, and the error is a TypeError, or a
    default source that does not pass the keyword check, and the error is
    the assertion failure that quotes the source without its leading
    whitespace. *)
Theorem get_columns_failure_causes `{HostDialect} (self : FBDialect)
    (connection : Connection) (table_name : string) (e : PyError) :
  outcome (get_columns self connection table_name) = Raise e ->
  exists row,
    In row (tblqry_rows connection (denormalize_name table_name))
    /\ ((e = TypeError
         /\ exists coltype,
              self_ischema_names self !! rstrip (ftype row) = Some coltype
              /\ issubclass_Integer coltype = true
              /\ ne_int (fprec row) 0 = true
              /\ fscale row = None)
        \/ (exists source,
              fdefault row = Some source
              /\ (forall rest, ~ delimited_DEFAULT (lstrip source) rest)
              /\ e = AssertionError
                       ("Unrecognized default value: " ++ lstrip source))).
Proof.
  destruct (outcome_get_columns self connection table_name) as [pk ->].
  intros Hraise. apply mapM_Raise_inv in Hraise as (row & Hin & Hrow).
  exists row. split; [exact Hin|].
  apply get_columns_row_Raise in Hrow as [Htype|Hdef].
  - left. now apply column_type_Raise in Htype.
  - right. destruct (fdefault row) as [source|] eqn:Hsource;
      [|discriminate Hdef].
    exists source. split; [reflexivity|].
    destruct (column_default_spec source)
      as [(rest & _ & Hok)|[Hnone Hfail]]; [congruence|].
    split; [exact Hnone | congruence].
Qed.

Lemma get_columns_failure_causes_witness :
  exists row,
    In row (tblqry_rows legacy_connection
              (@denormalize_name spec_host_dialect "broken"))
    /\ ((AssertionError "Unrecognized default value: DEFAULT'x'" = TypeError
         /\ exists coltype,
              self_ischema_names sample_dialect !! rstrip (ftype row)
              = Some coltype
              /\ issubclass_Integer coltype = true
              /\ ne_int (fprec row) 0 = true
              /\ fscale row = None)
        \/ (exists source,
              fdefault row = Some source
              /\ (forall rest, ~ delimited_DEFAULT (lstrip source) rest)
              /\ AssertionError "Unrecognized default value: DEFAULT'x'"
                 = AssertionError
                     ("Unrecognized default value: " ++ lstrip source))).
Proof.
  apply (@get_columns_failure_causes spec_host_dialect sample_dialect
           legacy_connection "broken").
  vm_compute. reflexivity.
Defined.

(** X8.  [get_columns] succeeds whenever every row of the column query has
    a non-NULL scale and a default source that is absent or made of the
    keyword and a delimited remainder. *)
Theorem get_columns_succeeds_on_well_formed_rows `{HostDialect}
    (self : FBDialect) (connection : Connection) (table_name : string) :
  Forall
    (fun row =>
       fscale row <> None
       /\ (fdefault row = None
           \/ exists source rest,
                fdefault row = Some source
                /\ delimited_DEFAULT (lstrip source) rest))
    (tblqry_rows connection (denormalize_name table_name)) ->
  exists cols,
    outcome (get_columns self connection table_name) = Ok cols
    /\ length cols
       = length (tblqry_rows connection (denormalize_name table_name)).
Proof.
  intros Hrows.
  destruct (outcome_get_columns self connection table_name) as [pk Hget].
  rewrite Hget.
  destruct (mapM_total
              (get_columns_row self connection (denormalize_name table_name)
                 pk)
              (tblqry_rows connection (denormalize_name table_name)))
    as [cols Hcols].
  - eapply Forall_impl; [exact Hrows|].
    intros row [Hscale Hdefault].
    destruct (outcome (column_type (self_ischema_names self)
                         (normalize_name (fname row)) row))
      as [coltype|e] eqn:Htype.
    + assert (Hdef : exists defvalue,
                column_default (fdefault row) = Ok defvalue).
      { destruct Hdefault as [->|(source & rest & -> & Hdelim)].
        - exists None. reflexivity.
        - destruct (column_default_spec source)
            as [(rest' & _ & Hok)|[Hnone _]]; [eauto|].
          now contradiction (Hnone rest). }
      destruct Hdef as [defvalue Hdef].
      exact (get_columns_row_total self connection _ pk row coltype defvalue
               Htype Hdef).
    + apply column_type_Raise in Htype as (_ & c & _ & _ & _ & Hnone).
      contradiction.
  - exists cols. split; [exact Hcols|].
    apply mapM_Ok in Hcols. apply Forall2_length in Hcols.
    symmetry. exact Hcols.
Qed.

Lemma get_columns_succeeds_on_well_formed_rows_witness :
  exists cols,
    outcome (@get_columns spec_host_dialect sample_dialect legacy_connection
               "item") = Ok cols
    /\ length cols
       = length (tblqry_rows legacy_connection
                   (@denormalize_name spec_host_dialect "item")).
Proof.
  apply (@get_columns_succeeds_on_well_formed_rows spec_host_dialect
           sample_dialect legacy_connection "item").
  assert (Hrows : tblqry_rows legacy_connection
                    (@denormalize_name spec_host_dialect "item")
                  = [price_row; mixed_case_row; lower_case_row])
    by (vm_compute; reflexivity).
  rewrite Hrows.
  repeat (constructor; [split; [discriminate|]|]).
  - right. exists "  default    0 ", "    0 ". split; [reflexivity|].
    exists "default". split; [reflexivity|]. split; [reflexivity|].
    right. exists " "%char, "   0 ". split; reflexivity.
  - right. exists "DEFAULT NULL", " NULL". split; [reflexivity|].
    exists "DEFAULT". split; [reflexivity|]. split; [reflexivity|].
    right. exists " "%char, "NULL". split; reflexivity.
  - left. reflexivity.
  - constructor.
Defined.

(** ** Reflected columns: the default type map *)

(** Initialization of a new dialect changes the type map at most at the
    TIMESTAMP key. *)
Lemma initialize_type_map_elsewhere (host_max_identifier_length : Z)
    (ctor_implicit_returning : option bool) (connection : Connection)
    (self : FBDialect) (key : string) :
  initialize (new_dialect host_max_identifier_length ctor_implicit_returning)
    connection = Ok self ->
  key <> "TIMESTAMP" ->
  self_ischema_names self !! key = ischema_names !! key.
Proof.
  unfold initialize.
  destruct (detect_version_two (reported_version connection)) as [v2|e];
    [|discriminate].
  cbn [rbind]. intros [= <-] Hkey. cbn [self_ischema_names new_dialect].
  destruct v2; [reflexivity|]. now apply lookup_insert_ne.
Qed.

(** X9.  On a dialect initialized from a new one, of either generation, a
    column of catalog type BLOB is reported as the text type exactly when
    its subtype is 1, and as the binary type for every other subtype and
    for a NULL subtype; its precision, scale and length play no part and no
    warning is issued. *)
Theorem blob_subtype_selects_text (host_max_identifier_length : Z)
    (ctor_implicit_returning : option bool) (connection : Connection)
    (self : FBDialect) (name : string) (row : FieldRow) :
  initialize (new_dialect host_max_identifier_length ctor_implicit_returning)
    connection = Ok self ->
  rstrip (ftype row) = "BLOB" ->
  column_type (self_ischema_names self) name row
  = ([], Ok (if eq_int (stype row) 1 then New TEXT [] else New BLOB [])).
Proof.
  intros Hinit Htype. unfold column_type. rewrite Htype.
  rewrite (initialize_type_map_elsewhere _ _ _ _ "BLOB" Hinit)
    by discriminate.
  replace (ischema_names !! "BLOB") with (Some BLOB)
    by (vm_compute; reflexivity).
  cbn [issubclass_Integer andb String.eqb Ascii.eqb Bool.eqb orb].
  destruct (eq_int (stype row) 1); reflexivity.
Qed.

Lemma blob_subtype_selects_text_witness :
  exists self,
    initialize (new_dialect 9999 None) legacy_connection = Ok self
    /\ column_type (self_ischema_names self) "notes" lower_case_row
       = ([], Ok (New TEXT []))
    /\ column_type (self_ischema_names self) "notes"
         (sample_row "NOTES" "BLOB ")
       = ([], Ok (New BLOB [])).
Proof.
  destruct (initialize (new_dialect 9999 None) legacy_connection)
    as [self|e] eqn:Hinit; [|discriminate Hinit].
  exists self. split; [reflexivity|]. split.
  - exact (blob_subtype_selects_text 9999 None legacy_connection self "notes"
             lower_case_row Hinit eq_refl).
  - exact (blob_subtype_selects_text 9999 None legacy_connection self "notes"
             (sample_row "NOTES" "BLOB ") Hinit eq_refl).
Defined.

(** X10.  On a dialect initialized from a new one, the three character
    types are reported with the catalog length as their only argument:
    VARYING as VARCHAR, CSTRING as CHAR and TEXT as TEXT, whatever the
    precision, scale and subtype of the row. *)
Theorem character_types_carry_length (host_max_identifier_length : Z)
    (ctor_implicit_returning : option bool) (connection : Connection)
    (self : FBDialect) (name : string) (row : FieldRow) :
  initialize (new_dialect host_max_identifier_length ctor_implicit_returning)
    connection = Ok self ->
  (rstrip (ftype row) = "VARYING" ->
   column_type (self_ischema_names self) name row
   = ([], Ok (New VARCHAR [flen row])))
  /\ (rstrip (ftype row) = "CSTRING" ->
      column_type (self_ischema_names self) name row
      = ([], Ok (New CHAR [flen row])))
  /\ (rstrip (ftype row) = "TEXT" ->
      column_type (self_ischema_names self) name row
      = ([], Ok (New TEXT [flen row]))).
Proof.
  intros Hinit. repeat split; intros Htype; unfold column_type;
    rewrite Htype;
    rewrite (initialize_type_map_elsewhere _ _ _ _ _ Hinit) by discriminate.
  - replace (ischema_names !! "VARYING") with (Some VARCHAR)
      by (vm_compute; reflexivity).
    reflexivity.
  - replace (ischema_names !! "CSTRING") with (Some CHAR)
      by (vm_compute; reflexivity).
    reflexivity.
  - replace (ischema_names !! "TEXT") with (Some TEXT)
      by (vm_compute; reflexivity).
    reflexivity.
Qed.

Lemma character_types_carry_length_witness :
  exists self,
    initialize (new_dialect 9999 None) modern_connection = Ok self
    /\ column_type (self_ischema_names self) "Abc" mixed_case_row
       = ([], Ok (New VARCHAR [Some 10%Z])).
Proof.
  destruct (initialize (new_dialect 9999 None) modern_connection)
    as [self|e] eqn:Hinit; [|discriminate Hinit].
  exists self. split; [reflexivity|].
  destruct (character_types_carry_length 9999 None modern_connection self
              "Abc" mixed_case_row Hinit) as [Hvarying _].
  exact (Hvarying eq_refl).
Defined.

(** ** Reflected columns: rows, sequences and defaults *)

(** X11.  A successful [get_columns] reports one descriptor per row of the
    column query, in the order of the rows; each carries the normalized
    catalog name, is nullable exactly when the null flag is NULL or zero,
    has the constant autoincrement setting and passes the computed source
    through unchanged. *)
Theorem get_columns_one_descriptor_per_row `{HostDialect} (self : FBDialect)
    (connection : Connection) (table_name : string) (cols : list ColumnDict) :
  outcome (get_columns self connection table_name) = Ok cols ->
  length cols = length (tblqry_rows connection (denormalize_name table_name))
  /\ Forall2
       (fun row col =>
          cd_name col = normalize_name (fname row)
          /\ cd_nullable col = negb (truthy (null_flag row))
          /\ cd_autoincrement col = "auto"
          /\ cd_computed col = computed_source row)
       (tblqry_rows connection (denormalize_name table_name)) cols.
Proof.
  destruct (outcome_get_columns self connection table_name) as [pk ->].
  intros Hcols. apply mapM_Ok in Hcols. split.
  - apply Forall2_length in Hcols. symmetry. exact Hcols.
  - eapply Forall2_impl; [exact Hcols|].
    intros row col Hrow. cbv beta in Hrow.
    apply get_columns_row_Ok in Hrow as (Hn & _ & _ & Hnull & Hauto & _ & Hc).
    auto.
Qed.

Lemma get_columns_one_descriptor_per_row_witness :
  length [price_column; mixed_case_column; lower_case_column]
  = length (tblqry_rows legacy_connection
              (@denormalize_name spec_host_dialect "item"))
  /\ Forall2
       (fun row col =>
          cd_name col = @normalize_name spec_host_dialect (fname row)
          /\ cd_nullable col = negb (truthy (null_flag row))
          /\ cd_autoincrement col = "auto"
          /\ cd_computed col = computed_source row)
       (tblqry_rows legacy_connection
          (@denormalize_name spec_host_dialect "item"))
       [price_column; mixed_case_column; lower_case_column].
Proof.
  apply (@get_columns_one_descriptor_per_row spec_host_dialect sample_dialect
           legacy_connection "item").
  vm_compute. reflexivity.
Defined.

(** X12.  The generator of a column is looked up only under a single-column
    primary key: when the key query does not return exactly one column,
    [get_columns] issues no generator query, its only events are the two
    catalog queries followed by warnings, and every reported descriptor has
    no sequence. *)
Theorem sequence_lookup_needs_single_column_key `{HostDialect}
    (self : FBDialect) (connection : Connection) (table_name : string) :
  length (keyqry_rows connection "PRIMARY KEY" (denormalize_name table_name))
  <> 1%nat ->
  (exists warnings,
      events (get_columns self connection table_name)
      = Execute pk_keyqry ["PRIMARY KEY"; denormalize_name table_name]
        :: Execute columns_tblqry [denormalize_name table_name]
        :: warnings
      /\ Forall (fun ev => exists msg, ev = Warn msg) warnings)
  /\ (forall cols,
        outcome (get_columns self connection table_name) = Ok cols ->
        Forall (fun col => cd_sequence col = None) cols).
Proof.
  intros Hkey. rewrite get_columns_unfold.
  assert (Hlen : length (map normalize_name
                   (keyqry_rows connection "PRIMARY KEY"
                      (denormalize_name table_name))) <> 1%nat)
    by now rewrite length_map.
  set (pk := map normalize_name _) in *.
  split.
  - exists (events (mapM (get_columns_row self connection
                            (denormalize_name table_name) pk)
                      (tblqry_rows connection (denormalize_name table_name)))).
    split.
    + rewrite !events_bind. reflexivity.
    + apply events_mapM_Forall. intros row _.
      now apply get_columns_row_events_no_key.
  - intros cols. rewrite !outcome_bind. cbn [emit outcome snd].
    intros Hcols. apply mapM_Ok in Hcols.
    induction Hcols as [|row col rows cols Hrow _ IH]; constructor;
      [|exact IH].
    apply get_columns_row_sequence in Hrow. rewrite Hrow.
    destruct pk as [|k [|k' pk']]; try reflexivity.
    now contradiction Hlen.
Qed.

Lemma sequence_lookup_needs_single_column_key_witness :
  (exists warnings,
      events (@get_columns spec_host_dialect sample_dialect legacy_connection
                "broken")
      = Execute pk_keyqry
          ["PRIMARY KEY"; @denormalize_name spec_host_dialect "broken"]
        :: Execute columns_tblqry
             [@denormalize_name spec_host_dialect "broken"]
        :: warnings
      /\ Forall (fun ev => exists msg, ev = Warn msg) warnings)
  /\ (forall cols,
        outcome (@get_columns spec_host_dialect sample_dialect
                   legacy_connection "broken") = Ok cols ->
        Forall (fun col => cd_sequence col = None) cols).
Proof.
  apply (@sequence_lookup_needs_single_column_key spec_host_dialect
           sample_dialect legacy_connection "broken").
  vm_compute. discriminate.
Defined.

(** X13.  Under a single-column primary key, the descriptor of the column
    whose normalized name equals the normalized key column carries the
    normalized name of the first generator that the generator query
    returns, or no sequence when the query returns no row, and every other
    descriptor carries no sequence.  The generator query receives the table
    name denormalized twice and the normalized column name denormalized
    once. *)
Theorem single_key_column_sequence `{HostDialect} (self : FBDialect)
    (connection : Connection) (table_name key_column : string)
    (cols : list ColumnDict) :
  keyqry_rows connection "PRIMARY KEY" (denormalize_name table_name)
  = [key_column] ->
  outcome (get_columns self connection table_name) = Ok cols ->
  Forall2
    (fun row col =>
       cd_sequence col
       = if (normalize_name (fname row) =? normalize_name key_column)%string
         then option_map normalize_name
                (first (genqry_rows connection
                          (denormalize_name (denormalize_name table_name))
                          (denormalize_name (normalize_name (fname row)))))
         else None)
    (tblqry_rows connection (denormalize_name table_name)) cols.
Proof.
  intros Hkey. rewrite get_columns_unfold, Hkey. cbn [map].
  rewrite !outcome_bind. cbn [emit outcome snd].
  intros Hcols. apply mapM_Ok in Hcols.
  eapply Forall2_impl; [exact Hcols|].
  intros row col Hrow. cbv beta in Hrow.
  now apply get_columns_row_sequence in Hrow.
Qed.

Lemma single_key_column_sequence_witness :
  Forall2
    (fun row col =>
       cd_sequence col
       = if (@normalize_name spec_host_dialect (fname row)
             =? @normalize_name spec_host_dialect "PRICE")%string
         then option_map (@normalize_name spec_host_dialect)
                (first (genqry_rows legacy_connection
                          (@denormalize_name spec_host_dialect
                             (@denormalize_name spec_host_dialect "item"))
                          (@denormalize_name spec_host_dialect
                             (@normalize_name spec_host_dialect
                                (fname row)))))
         else None)
    (tblqry_rows legacy_connection
       (@denormalize_name spec_host_dialect "item"))
    [price_column; mixed_case_column; lower_case_column].
Proof.
  apply (@single_key_column_sequence spec_host_dialect sample_dialect
           legacy_connection "item" "PRICE").
  - vm_compute. reflexivity.
  - vm_compute. reflexivity.
Defined.

Lemma lstrip_idempotent (s : string) : lstrip (lstrip s) = lstrip s.
Proof.
  induction s as [|c r IH]; [reflexivity|].
  cbn [lstrip]. destruct (isspace c) eqn:Hc; [exact IH|].
  cbn [lstrip]. now rewrite Hc.
Qed.

Lemma rstrip_idempotent (s : string) : rstrip (rstrip s) = rstrip s.
Proof.
  induction s as [|c r IH]; [reflexivity|].
  cbn [rstrip]. destruct (rstrip r) as [|c' r'] eqn:Hr.
  - destruct (isspace c) eqn:Hc; [reflexivity|].
    cbn [rstrip]. now rewrite Hc.
  - cbn [rstrip]. cbn [rstrip] in IH.
    destruct (rstrip r') as [|c'' r''] eqn:Hr'.
    + destruct (isspace c') eqn:Hc'; [discriminate IH|].
      now rewrite IH.
    + now rewrite IH.
Qed.

Lemma lstrip_rstrip_commute (s : string) :
  rstrip (lstrip s) = lstrip (rstrip s).
Proof.
  induction s as [|c r IH]; [reflexivity|].
  cbn [lstrip rstrip]. destruct (isspace c) eqn:Hc.
  - rewrite IH. destruct (rstrip r) as [|c' r'] eqn:Hr; [reflexivity|].
    cbn [lstrip]. now rewrite Hc.
  - cbn [rstrip]. destruct (rstrip r) as [|c' r'] eqn:Hr; cbn [lstrip];
      now rewrite Hc.
Qed.

(** X14.  A default value reported by the reflection has no whitespace at
    either end and is never the text NULL: stripping it again, on the left
    or on the right, leaves it unchanged. *)
Theorem reported_default_is_stripped (fdefault : option string)
    (text : string) :
  column_default fdefault = Ok (Some text) ->
  lstrip text = text /\ rstrip text = text /\ strip text = text
  /\ text <> "NULL".
Proof.
  unfold column_default. destruct fdefault as [source|]; [|discriminate].
  destruct (_ =? "DEFAULT")%string; [|discriminate].
  destruct (strip (slice_from 8 (lstrip source)) =? "NULL")%string eqn:Hnull;
    [discriminate|].
  intros [= <-]. apply String.eqb_neq in Hnull.
  set (tail := slice_from 8 (lstrip source)) in *.
  assert (Hl : lstrip (strip tail) = strip tail)
    by (unfold strip; apply lstrip_idempotent).
  assert (Hr : rstrip (strip tail) = strip tail)
    by (unfold strip; now rewrite <- lstrip_rstrip_commute,
          rstrip_idempotent).
  repeat split; try assumption.
  change (lstrip (rstrip (strip tail)) = strip tail).
  now rewrite Hr.
Qed.

Lemma reported_default_is_stripped_witness :
  lstrip "0" = "0" /\ rstrip "0" = "0" /\ strip "0" = "0" /\ "0" <> "NULL".
Proof.
  apply (reported_default_is_stripped (Some "  default    0 ") "0").
  reflexivity.
Defined.

(** ** Rendering: types, column specifications and the legacy profile *)

(** X15.  The VARCHAR renderer fails exactly when the length of the type
    is missing or zero, whatever its character set, and then with the
    CompileError that names the dialect.  With any other length it returns
    the generic VARCHAR text, followed by the CHARACTER SET clause exactly
    when the type has a character set. *)
Theorem varchar_compiles_iff_sized {Clause : Type} `{HostCompiler Clause}
    (type_ : StringType) :
  ((exists e, visit_VARCHAR type_ = Raise e) <->
   (type_length type_ = None \/ type_length type_ = Some 0%Z))
  /\ (forall e,
        visit_VARCHAR type_ = Raise e ->
        e = CompileError "VARCHAR requires a length on dialect firebird")
  /\ (forall n,
        type_length type_ = Some n -> n <> 0%Z ->
        visit_VARCHAR type_
        = Ok match charset type_ with
             | None => super_visit_VARCHAR type_
             | Some cs => super_visit_VARCHAR type_ ++ " CHARACTER SET " ++ cs
             end).
Proof.
  unfold visit_VARCHAR, _extend_string.
  destruct (type_length type_) as [n|]; cbn [truthy negb].
  - destruct (Z.eqb_spec n 0) as [->|Hn]; cbn [negb].
    + split; [split; [now right | eauto]|].
      split; [now intros e [= <-] | intros n [= <-] Hn; contradiction].
    + split; [split; [intros [e He]; discriminate He|]|].
      * intros [Hnone|[= Hzero]]; [discriminate Hnone | contradiction].
      * split; [intros e He; discriminate He|].
        intros n' [= <-] _. destruct (charset type_); reflexivity.
  - split; [split; [now left | eauto]|].
    split; [now intros e [= <-] | intros n Hn; discriminate Hn].
Qed.

Lemma varchar_compiles_iff_sized_witness :
  (exists e,
      @visit_VARCHAR Z sample_host_compiler
        {| type_length := Some 0%Z; charset := Some "UTF8" |} = Raise e)
  /\ @visit_VARCHAR Z sample_host_compiler
       {| type_length := Some 30%Z; charset := Some "UTF8" |}
     = Ok (@super_visit_VARCHAR Z sample_host_compiler
             {| type_length := Some 30%Z; charset := Some "UTF8" |}
           ++ " CHARACTER SET " ++ "UTF8").
Proof.
  split.
  - apply (@varchar_compiles_iff_sized Z sample_host_compiler
             {| type_length := Some 0%Z; charset := Some "UTF8" |}).
    right. reflexivity.
  - destruct (@varchar_compiles_iff_sized Z sample_host_compiler
                {| type_length := Some 30%Z; charset := Some "UTF8" |})
      as (_ & _ & Hsized).
    apply (Hsized 30%Z); [reflexivity | discriminate].
Defined.

(** X17.  For the autoincrement column of its table, and for a column with
    autoincrement set to True, the specification never consults the
    column's default: it is the same under every default-string function of
    the host, and it is the type text followed by the identity clause with
    the configured start value and then by nothing or by NOT NULL. *)
Theorem identity_column_ignores_default {Clause : Type}
    (host : HostCompiler Clause) (column : Column Clause) :
  is_autoincrement_column column = true
  \/ autoincrement column = auto_True ->
  (forall f,
      @get_column_specification Clause (with_default_string host f) column
      = @get_column_specification Clause host column)
  /\ (forall text,
        @get_column_specification Clause host column = Ok text ->
        exists head tail,
          text
          = (head ++ " GENERATED BY DEFAULT AS IDENTITY (START WITH "
             ++ str_of_int (identity_start column) ++ ")") ++ tail
          /\ (tail = "" \/ tail = " NOT NULL")).
Proof.
  intros Hidentity.
  assert (Hcond : is_autoincrement_column column
                  || autoincrement_is_True column = true).
  { destruct Hidentity as [->|Hauto]; [reflexivity|].
    unfold autoincrement_is_True. rewrite Hauto. apply orb_true_r. }
  split.
  - intros f. unfold get_column_specification. rewrite Hcond. reflexivity.
  - intros text. unfold get_column_specification. rewrite Hcond.
    match goal with
    | |- rbind ?stage _ = _ -> _ => destruct stage as [t|e]
    end; cbn [rbind]; [|discriminate].
    destruct (nullable column) as [is_nullable|].
    + destruct (negb is_nullable || primary_key column
                || default_is_Sequence column || autoincrement_is_True column);
        intros [= <-].
      * exists t, " NOT NULL". split; [reflexivity | now right].
      * exists t, "". split; [now rewrite append_nil_r | now left].
    + intros [= <-]. exists t, "".
      split; [now rewrite append_nil_r | now left].
Qed.

Lemma identity_column_ignores_default_witness :
  @get_column_specification Z
    (with_default_string sample_host_compiler (fun _ => Some "42"))
    {| column_name := "id"; type := other_type "INTEGER"; computed := None;
       autoincrement := auto_True; nullable := Some true;
       primary_key := false; default_ := other_default; identity_start := 7;
       is_autoincrement_column := false |}
  = @get_column_specification Z sample_host_compiler
      {| column_name := "id"; type := other_type "INTEGER"; computed := None;
         autoincrement := auto_True; nullable := Some true;
         primary_key := false; default_ := other_default;
         identity_start := 7; is_autoincrement_column := false |}.
Proof.
  destruct (identity_column_ignores_default sample_host_compiler
              {| column_name := "id"; type := other_type "INTEGER";
                 computed := None; autoincrement := auto_True;
                 nullable := Some true; primary_key := false;
                 default_ := other_default; identity_start := 7;
                 is_autoincrement_column := false |}
              (or_intror eq_refl)) as [Hsame _].
  exact (Hsame (fun _ => Some "42")).
Defined.

(** X18.  After initialization on a connection whose version tuple leads
    with the major number and reports neither firebird with major at least
    2 nor interbase with major at least 6, the dialect renders with the
    legacy profile: sequences are created and dropped with the GENERATOR
    keyword; every alias in a FROM clause is the element, a blank and the
    formatted alias name without AS, where the name of a truncated label
    is its truncated identifier unless that is empty; and an alias
    elsewhere is the element alone. *)
Theorem legacy_dialect_renders_generator_and_bare_alias {Clause : Type}
    `{HostCompiler Clause} (self self' : FBDialect) (connection : Connection)
    (major : Z) (rest : list VersionItem) (sequence : Sequence)
    (alias : Alias Clause) :
  reported_version connection = VInt major :: rest ->
  ~ reports "firebird" 2 major rest ->
  ~ reports "interbase" 6 major rest ->
  initialize self connection = Ok self' ->
  visit_drop_sequence self' sequence
  = "DROP GENERATOR " ++ format_sequence sequence
  /\ (start sequence = None -> increment sequence = None ->
      visit_create_sequence self' sequence
      = Ok ("CREATE GENERATOR " ++ format_sequence sequence))
  /\ visit_alias self' alias true
     = process_asfrom (element alias) true ++ " "
       ++ format_alias alias
            (if is_truncated_label alias then
               if (_truncated_identifier "alias" (alias_name alias) =? "")%string
               then alias_name alias
               else _truncated_identifier "alias" (alias_name alias)
             else alias_name alias)
  /\ visit_alias self' alias false = process (element alias).
Proof.
  intros Hversion Hfb Hib. unfold initialize.
  rewrite Hversion, (detect_version_two_legacy major rest Hfb Hib).
  cbn [rbind]. intros [= <-].
  unfold visit_drop_sequence, visit_create_sequence, visit_alias.
  cbn [_version_two]. split; [reflexivity|]. split.
  - intros -> ->. reflexivity.
  - split; reflexivity.
Qed.

Lemma legacy_dialect_renders_generator_and_bare_alias_witness :
  exists self',
    initialize sample_dialect legacy_connection = Ok self'
    /\ @visit_drop_sequence Z sample_host_compiler self' sample_sequence
       = "DROP GENERATOR " ++ @format_sequence Z sample_host_compiler
                                sample_sequence
    /\ @visit_alias Z sample_host_compiler self'
         {| alias_name := "anon_1"; is_truncated_label := true;
            element := 7%Z |} true
       = "7 anon_1"
    /\ @visit_alias Z sample_host_compiler self'
         {| alias_name := "t"; is_truncated_label := false; element := 7%Z |}
         false
       = @process Z sample_host_compiler 7%Z.
Proof.
  destruct (initialize sample_dialect legacy_connection) as [self'|e]
    eqn:Hinit; [|discriminate Hinit].
  exists self'. split; [reflexivity|].
  assert (Hfb : ~ reports "firebird" 2 1 [VInt 5; VInt 0; VStr "firebird"])
    by (unfold reports; lia).
  assert (Hib : ~ reports "interbase" 6 1 [VInt 5; VInt 0; VStr "firebird"])
    by (unfold reports; lia).
  destruct (@legacy_dialect_renders_generator_and_bare_alias Z
              sample_host_compiler sample_dialect self' legacy_connection 1
              [VInt 5; VInt 0; VStr "firebird"] sample_sequence
              {| alias_name := "anon_1"; is_truncated_label := true;
                 element := 7%Z |} eq_refl Hfb Hib Hinit)
    as (Hdrop & _ & Hfrom & _).
  destruct (@legacy_dialect_renders_generator_and_bare_alias Z
              sample_host_compiler sample_dialect self' legacy_connection 1
              [VInt 5; VInt 0; VStr "firebird"] sample_sequence
              {| alias_name := "t"; is_truncated_label := false;
                 element := 7%Z |} eq_refl Hfb Hib Hinit)
    as (_ & _ & _ & Halias).
  split; [exact Hdrop|]. split; [exact Hfrom | exact Halias].
Defined.

(** ** Bound dates and table options *)

(** X19.  The bind processor of the date+time type never returns a plain
    date: a plain date is promoted to the date+time of its midnight, every
    other value is returned unchanged, and processing a value twice is
    processing it once. *)
Theorem bind_processor_promotes_dates (dialect : FBDialect)
    (value : BindValue) :
  (forall year month day,
      bind_processor dialect value <> date_value year month day)
  /\ (forall year month day,
        value = date_value year month day ->
        bind_processor dialect value
        = datetime_value year month day 0 0 0 0)
  /\ ((forall year month day, value <> date_value year month day) ->
      bind_processor dialect value = value)
  /\ bind_processor dialect (bind_processor dialect value)
     = bind_processor dialect value.
Proof.
  repeat split.
  - intros year month day. destruct value; discriminate.
  - intros year month day ->. reflexivity.
  - intros Hother. destruct value as [y m d| |]; try reflexivity.
    now contradiction (Hother y m d).
  - destruct value; reflexivity.
Qed.

Lemma bind_processor_promotes_dates_witness :
  bind_processor sample_dialect (date_value 2024 2 29)
  = datetime_value 2024 2 29 0 0 0 0.
Proof.
  destruct (bind_processor_promotes_dates sample_dialect
              (date_value 2024 2 29)) as (_ & Hdate & _).
  exact (Hdate 2024%Z 2%Z 29%Z eq_refl).
Defined.

Lemma upper_replace_char_clean (c : ascii) :
  let c' := upper_char (if Ascii.eqb c "_" then " "%char else c) in
  negb (Ascii.eqb c' "_") && negb (is_lower_letter c') = true.
Proof. ascii_cases c; vm_compute; reflexivity. Qed.

Lemma length_replace_char (old new : ascii) (s : string) :
  String.length (replace_char old new s) = String.length s.
Proof.
  induction s as [|c r IH]; cbn [replace_char String.length];
    [reflexivity | now rewrite IH].
Qed.

(** X20.  The table options text is empty when the ON COMMIT option is
    missing or the empty string.  Otherwise it is a line feed, the words ON
    COMMIT and an option text in which no underscore is left; when the
    option is made of ASCII characters, that text has the length of the
    option and no lower-case letter is left in it. *)
Theorem post_create_table_option_text (on_commit : option string) :
  (on_commit = None \/ on_commit = Some "" -> post_create_table on_commit = "")
  /\ (forall text,
        on_commit = Some text -> text <> "" ->
        exists options,
          post_create_table on_commit
          = String "010" " ON COMMIT " ++ options
          /\ all_chars (fun c => negb (Ascii.eqb c "_")) options = true
          /\ (is_ascii_text text = true ->
              String.length options = String.length text
              /\ all_chars (fun c => negb (is_lower_letter c)) options
                 = true)).
Proof.
  split.
  - intros [->| ->]; reflexivity.
  - intros text -> Htext. unfold post_create_table.
    destruct (text =? "")%string eqn:Hempty;
      [apply String.eqb_eq in Hempty; contradiction|].
    exists (upper (replace_char "_" " " text)).
    split; [reflexivity|]. split; [|intros _; split].
    + clear. induction text as [|c r IH]; [reflexivity|].
      cbn [replace_char upper all_chars]. rewrite IH, andb_true_r.
      pose proof (upper_replace_char_clean c) as Hc. cbv zeta in Hc.
      now apply andb_true_iff in Hc as [Hc _].
    + now rewrite length_upper, length_replace_char.
    + clear. induction text as [|c r IH]; [reflexivity|].
      cbn [replace_char upper all_chars]. rewrite IH, andb_true_r.
      pose proof (upper_replace_char_clean c) as Hc. cbv zeta in Hc.
      now apply andb_true_iff in Hc as [_ Hc].
Qed.

Lemma post_create_table_option_text_witness :
  exists options,
    post_create_table (Some "preserve_rows")
    = String "010" " ON COMMIT " ++ options
    /\ all_chars (fun c => negb (Ascii.eqb c "_")) options = true
    /\ String.length options = String.length "preserve_rows"
    /\ all_chars (fun c => negb (is_lower_letter c)) options = true.
Proof.
  destruct (post_create_table_option_text (Some "preserve_rows"))
    as [_ Htext].
  destruct (Htext "preserve_rows" eq_refl) as (options & Heq & Hclean & Hascii);
    [discriminate|].
  exists options. split; [exact Heq|]. split; [exact Hclean|].
  apply Hascii. reflexivity.
Defined.

(** ** Listings *)

Lemma filter_three_disjoint {A : Type} (p q r : A -> bool) (l : list A) :
  (forall a, p a && q a = false) ->
  (forall a, p a && r a = false) ->
  (forall a, q a && r a = false) ->
  (length (List.filter p l) + length (List.filter q l)
   + length (List.filter r l) <= length l)%nat.
Proof.
  intros Hpq Hpr Hqr. induction l as [|a l IH]; [reflexivity|].
  cbn [List.filter]. specialize (Hpq a). specialize (Hpr a).
  specialize (Hqr a).
  destruct (p a), (q a), (r a); cbn [length]; try discriminate; lia.
Qed.

(** X21.  The three relation listings select disjoint rows of the relation
    catalog: no row is at once a table, a temporary table or a view, a row
    with a system flag other than NULL and zero is none of them, and
    neither is a relation without view definition whose relation type is
    NULL.  So the three listings together are at most as long as the
    catalog. *)
Theorem listings_select_disjoint_rows `{HostDialect} (catalog : Catalog) :
  (forall r,
      is_table_row r && is_temp_table_row r = false
      /\ is_table_row r && is_view_row r = false
      /\ is_temp_table_row r && is_view_row r = false)
  /\ (forall r,
        sql_null_or_zero (rdb_system_flag r) = false ->
        is_table_row r = false /\ is_temp_table_row r = false
        /\ is_view_row r = false)
  /\ (forall r,
        rdb_view_blr r = None -> rdb_relation_type r = None ->
        is_table_row r = false /\ is_temp_table_row r = false
        /\ is_view_row r = false)
  /\ (length (get_table_names catalog)
      + length (get_temp_table_names catalog)
      + length (get_view_names catalog) <= length (relations catalog))%nat.
Proof.
  assert (Hdisjoint : forall r,
    is_table_row r && is_temp_table_row r = false
    /\ is_table_row r && is_view_row r = false
    /\ is_temp_table_row r && is_view_row r = false).
  { intros r. unfold is_table_row, is_temp_table_row, is_view_row, sql_equals.
    destruct (rdb_view_blr r), (sql_null_or_zero (rdb_system_flag r)),
      (rdb_relation_type r) as [n|]; cbn [andb orb];
      try (repeat split; reflexivity);
      destruct (Z.eqb_spec n 0), (Z.eqb_spec n 4), (Z.eqb_spec n 5);
      cbn [andb orb]; repeat split; try reflexivity; lia. }
  split; [exact Hdisjoint|]. split; [|split].
  - intros r Hsystem. unfold is_table_row, is_temp_table_row, is_view_row.
    rewrite Hsystem. now rewrite !andb_false_r.
  - intros r Hblr Htype. unfold is_table_row, is_temp_table_row, is_view_row.
    rewrite Hblr, Htype. cbn [sql_equals orb andb].
    now rewrite !andb_false_r.
  - unfold get_table_names, get_temp_table_names, get_view_names.
    rewrite !length_map. apply filter_three_disjoint; apply Hdisjoint.
Qed.

Lemma listings_select_disjoint_rows_witness :
  (length (@get_table_names spec_host_dialect sample_catalog)
   + length (@get_temp_table_names spec_host_dialect sample_catalog)
   + length (@get_view_names spec_host_dialect sample_catalog)
   <= length (relations sample_catalog))%nat.
Proof.
  destruct (@listings_select_disjoint_rows spec_host_dialect sample_catalog)
    as (_ & _ & _ & Hlength).
  exact Hlength.
Defined.

Lemma existsb_eqb_In (name : string) (names : list string) :
  In name names -> existsb (String.eqb name) names = true.
Proof.
  intros Hin. apply existsb_exists. exists name.
  split; [exact Hin | apply String.eqb_refl].
Qed.

(** X22.  Listing and existence agree.  For a relation of the catalog whose
    stored name has no blanks to trim and is restored by denormalizing its
    normalized form, and whose normalized name is within the identifier
    limit, [has_table] answers True for the normalized name, which is the
    name under which the relation appears in the listing of tables, of
    temporary tables or of views that selects its row; [has_table] answers
    True for views and system relations as well. *)
Theorem listed_relation_exists `{HostDialect} (self : FBDialect)
    (connection : Connection) (catalog : Catalog) (r : RelationRow) :
  same_relations connection catalog ->
  In r (relations catalog) ->
  sql_trim (rdb_relation_name r) = rdb_relation_name r ->
  denormalize_name (normalize_name (rdb_relation_name r))
  = rdb_relation_name r ->
  (Z.of_nat (String.length (normalize_name (rdb_relation_name r)))
   <= max_identifier_length self)%Z ->
  outcome (has_table self connection (normalize_name (rdb_relation_name r)))
  = Ok true
  /\ (is_table_row r = true ->
      In (normalize_name (rdb_relation_name r)) (get_table_names catalog))
  /\ (is_temp_table_row r = true ->
      In (normalize_name (rdb_relation_name r))
        (get_temp_table_names catalog))
  /\ (is_view_row r = true ->
      In (normalize_name (rdb_relation_name r)) (get_view_names catalog)).
Proof.
  intros Hsame Hin Htrim Hround Hlen. split.
  - unfold has_table.
    destruct (Z.ltb_spec (max_identifier_length self)
                (Z.of_nat (String.length
                             (normalize_name (rdb_relation_name r)))))
      as [Hlt|_]; [lia|].
    rewrite outcome_bind. cbn [emit ret outcome snd].
    unfold has_table_rows. rewrite Hround, Hsame.
    rewrite existsb_eqb_In; [reflexivity|].
    apply in_map_iff. exists r. split; [reflexivity | exact Hin].
  - unfold get_table_names, get_temp_table_names, get_view_names.
    repeat split; intros Hrow; apply in_map_iff; exists r;
      (split; [now rewrite Htrim | now apply filter_In]).
Qed.

Lemma listed_relation_exists_witness :
  outcome
    (@has_table spec_host_dialect sample_dialect catalog_connection
       (@normalize_name spec_host_dialect "ITEM_V")) = Ok true
  /\ In (@normalize_name spec_host_dialect "ITEM_V")
       (@get_view_names spec_host_dialect sample_catalog).
Proof.
  destruct (@listed_relation_exists spec_host_dialect sample_dialect
              catalog_connection sample_catalog
              {| rdb_relation_name := "ITEM_V"; rdb_view_blr := Some "blr";
                 rdb_system_flag := Some 0%Z; rdb_relation_type := Some 1%Z |})
    as (Hexists & _ & _ & Hview).
  - reflexivity.
  - vm_compute. tauto.
  - reflexivity.
  - vm_compute. reflexivity.
  - vm_compute. discriminate.
  - split; [exact Hexists | exact (Hview eq_refl)].
Defined.

(** X23.  For a generator of the catalog whose stored name is restored by
    denormalizing its normalized form, [has_sequence] answers True for the
    normalized name, whatever its length and also for a system generator;
    when the generator is a user generator and its name has no blanks to
    trim, that name is in the listing of sequences. *)
Theorem listed_sequence_exists `{HostDialect} (catalog : Catalog)
    (g : GeneratorRow) :
  In g (generators catalog) ->
  denormalize_name (normalize_name (rdb_generator_name g))
  = rdb_generator_name g ->
  has_sequence catalog (normalize_name (rdb_generator_name g)) = true
  /\ (is_user_generator_row g = true ->
      sql_trim (rdb_generator_name g) = rdb_generator_name g ->
      In (normalize_name (rdb_generator_name g))
        (get_sequence_names catalog)).
Proof.
  intros Hin Hround. split.
  - unfold has_sequence. rewrite Hround.
    replace (existsb _ (generators catalog)) with true; [reflexivity|].
    symmetry. apply existsb_exists. exists g.
    split; [exact Hin | apply String.eqb_refl].
  - intros Huser Htrim. unfold get_sequence_names. apply in_map_iff.
    exists g. split; [now rewrite Htrim | now apply filter_In].
Qed.

Lemma listed_sequence_exists_witness :
  @has_sequence spec_host_dialect sample_catalog
    (@normalize_name spec_host_dialect "ITEM_GEN") = true
  /\ In (@normalize_name spec_host_dialect "ITEM_GEN")
       (@get_sequence_names spec_host_dialect sample_catalog).
Proof.
  destruct (@listed_sequence_exists spec_host_dialect sample_catalog
              {| rdb_generator_name := "ITEM_GEN";
                 rdb_generator_system_flag := Some 0%Z |})
    as (Hexists & Hlisted).
  - vm_compute. tauto.
  - vm_compute. reflexivity.
  - split; [exact Hexists | exact (Hlisted eq_refl eq_refl)].
Defined.

(** ** Grouped reflection: foreign keys and indexes *)

Lemma dict_update_missing {V : Type} (key : string) (default : V)
    (f : V -> V) (d : list (string * V)) :
  ~ In key (map fst d) ->
  dict_update key default f d = (d ++ [(key, f default)])%list.
Proof.
  induction d as [|[k v] d IH]; intros Hmissing; [reflexivity|].
  cbn [dict_update]. cbn [map fst In] in Hmissing.
  destruct (String.eqb_spec k key) as [->|Hne];
    [destruct Hmissing; now left|].
  rewrite IH; [reflexivity|]. intros Hin. apply Hmissing. now right.
Qed.

Lemma dict_update_keys {V : Type} (key : string) (default : V)
    (f : V -> V) (d : list (string * V)) :
  In key (map fst d) ->
  map fst (dict_update key default f d) = map fst d.
Proof.
  induction d as [|[k v] d IH]; intros Hin; [destruct Hin|].
  cbn [dict_update]. destruct (String.eqb_spec k key) as [->|Hne];
    [reflexivity|].
  cbn [map fst]. f_equal. apply IH. destruct Hin as [Hk|Hin];
    [contradiction | exact Hin].
Qed.

Lemma dict_update_entry {V : Type} (key : string) (default : V)
    (f : V -> V) (d : list (string * V)) (k : string) (v' : V) :
  In key (map fst d) -> List.NoDup (map fst d) ->
  In (k, v') (dict_update key default f d) ->
  (k <> key /\ In (k, v') d)
  \/ (k = key /\ exists v, In (key, v) d /\ v' = f v).
Proof.
  induction d as [|[k0 v0] d IH]; intros Hin Hnodup Hentry; [destruct Hin|].
  cbn [map fst] in Hnodup. apply NoDup_cons_iff in Hnodup as [Hfresh Hnodup].
  cbn [dict_update] in Hentry.
  destruct (String.eqb_spec k0 key) as [->|Hne].
  - destruct Hentry as [[= <- <-]|Hentry].
    + right. split; [reflexivity|]. exists v0. split; [now left | reflexivity].
    + left. split; [|now right].
      intros ->. apply Hfresh. apply in_map_iff. now exists (key, v').
  - destruct Hentry as [[= <- <-]|Hentry].
    + left. split; [exact Hne | now left].
    + destruct Hin as [Hk|Hin]; [contradiction|].
      destruct (IH Hin Hnodup Hentry) as [[Hk Hd]|(-> & v & Hd & ->)].
      * left. split; [exact Hk | now right].
      * right. split; [reflexivity|]. exists v.
        split; [now right | reflexivity].
Qed.

Lemma NoDup_app_singleton {A : Type} (l : list A) (a : A) :
  List.NoDup l -> ~ In a l -> List.NoDup (l ++ [a]).
Proof.
  induction 1 as [|x l Hx Hl IH]; intros Ha; cbn [app].
  - constructor; [intros [] | constructor].
  - constructor.
    + rewrite in_app_iff. cbn [In]. intros [Hin|[->|[]]];
        [exact (Hx Hin)|].
      apply Ha. now left.
    + apply IH. intros Hin. apply Ha. now right.
Qed.

Lemma NoDup_map_Some {A : Type} (l : list A) :
  List.NoDup l -> List.NoDup (map Some l).
Proof.
  induction 1 as [|x l Hx Hl IH]; cbn [map]; constructor; [|exact IH].
  rewrite in_map_iff. intros (y & [= ->] & Hy). contradiction.
Qed.

Lemma filter_app_singleton {A : Type} (p : A -> bool) (l : list A) (a : A) :
  List.filter p (l ++ [a])
  = (List.filter p l ++ if p a then [a] else [])%list.
Proof. rewrite List.filter_app. reflexivity. Qed.

Section GroupBy.

Context {Row V : Type}.
Variable key_of : Row -> string.
Variable default : Row -> V.
Variable update : Row -> V -> V.

(** [describes key group v]: the entry [v] stands for the rows [group],
    which all have the key [key]. *)
Variable describes : string -> list Row -> V -> Prop.

Hypothesis describes_new :
  forall row, describes (key_of row) [row] (update row (default row)).

Hypothesis describes_next :
  forall row group v,
    group <> [] ->
    describes (key_of row) group v ->
    describes (key_of row) (group ++ [row]) (update row v).

(** A loop that updates the dictionary entry of each row's key groups the
    rows by key, in the order of the first row of each key. *)
Lemma group_by_key (rows : list Row) :
  let d :=
    fold_left
      (fun d row => dict_update (key_of row) (default row) (update row) d)
      rows [] in
  List.NoDup (map fst d)
  /\ (forall key,
        In key (map fst d) <-> exists row, In row rows /\ key_of row = key)
  /\ (forall key v,
        In (key, v) d ->
        let group :=
          List.filter (fun row => (key_of row =? key)%string) rows in
        group <> [] /\ describes key group v).
Proof.
  induction rows as [|row rows IH] using rev_ind.
  - cbn. split; [constructor|]. split.
    + intros key. split; [intros [] | intros (row & [] & _)].
    + intros key v [].
  - rewrite fold_left_app. cbn [fold_left].
    cbv zeta in IH.
    set (d := fold_left _ rows []) in *.
    destruct IH as (Hnodup & Hkeys & Hentries).
    assert (Hnonempty : forall key,
      In key (map fst d) ->
      List.filter (fun r => (key_of r =? key)%string) rows <> []).
    { intros key Hin. apply Hkeys in Hin as (r & Hr & Hkey).
      intros Hempty.
      assert (Hfilter : In r (List.filter
                                (fun r => (key_of r =? key)%string) rows)).
      { apply filter_In. split; [exact Hr|]. now apply String.eqb_eq. }
      rewrite Hempty in Hfilter. destruct Hfilter. }
    assert (Hempty : forall key,
      ~ In key (map fst d) ->
      List.filter (fun r => (key_of r =? key)%string) rows = []).
    { intros key Hmissing.
      destruct (List.filter (fun r => (key_of r =? key)%string) rows)
        as [|r g] eqn:Hfilter; [reflexivity|].
      assert (Hr : In r (List.filter
                           (fun r => (key_of r =? key)%string) rows))
        by (rewrite Hfilter; now left).
      apply filter_In in Hr as [Hr Hkey]. apply String.eqb_eq in Hkey.
      destruct Hmissing. apply Hkeys. now exists r. }
    cbv zeta.
    destruct (in_dec string_dec (key_of row) (map fst d)) as [Hin|Hmissing].
    + split; [|split].
      * now rewrite dict_update_keys.
      * intros key. rewrite dict_update_keys by exact Hin.
        rewrite Hkeys. split.
        -- intros (r & Hr & Hkey). exists r.
           split; [apply in_app_iff; now left | exact Hkey].
        -- intros (r & Hr & Hkey). apply in_app_iff in Hr as [Hr|[->|[]]].
           ++ now exists r.
           ++ subst key. now apply Hkeys.
      * intros key v' Hentry. rewrite filter_app_singleton.
        apply dict_update_entry in Hentry
          as [[Hne Hd]|(-> & v & Hd & ->)]; try assumption.
        -- destruct (String.eqb_spec (key_of row) key) as [Heq|_];
             [now contradiction Hne|].
           rewrite app_nil_r. now apply Hentries.
        -- rewrite String.eqb_refl.
           destruct (Hentries _ _ Hd) as [Hgroup Hdescribes].
           split; [|now apply describes_next].
           intros Happ. now apply app_eq_nil in Happ as [_ [=]].
    + rewrite dict_update_missing by exact Hmissing.
      split; [|split].
      * rewrite map_app. cbn [map fst]. now apply NoDup_app_singleton.
      * intros key. rewrite map_app, in_app_iff. cbn [map fst In].
        rewrite Hkeys. split.
        -- intros [(r & Hr & Hkey)|[<-|[]]].
           ++ exists r. split; [apply in_app_iff; now left | exact Hkey].
           ++ exists row. split; [apply in_app_iff; right; now left|].
              reflexivity.
        -- intros (r & Hr & Hkey). apply in_app_iff in Hr as [Hr|[->|[]]].
           ++ left. now exists r.
           ++ right. now left.
      * intros key v' Hentry. rewrite filter_app_singleton.
        apply in_app_iff in Hentry as [Hd|[[= <- <-]|[]]].
        -- assert (Hkey : In key (map fst d))
             by (apply in_map_iff; now exists (key, v')).
           destruct (String.eqb_spec (key_of row) key) as [Heq|_];
             [subst key; contradiction|].
           rewrite app_nil_r. now apply Hentries.
        -- rewrite String.eqb_refl, (Hempty _ Hmissing). cbn [app].
           split; [discriminate | apply describes_new].
Qed.

End GroupBy.

Section GroupedFacts.

Context `{HostDialect}.

Lemma foreign_keys_grouped (rows : list ForeignKeyRow) :
  let d := fold_left foreign_key_step rows [] in
  List.NoDup (map fst d)
  /\ (forall key,
        In key (map fst d)
        <-> exists row, In row rows /\ normalize_name (fk_cname row) = key)
  /\ (forall key fk,
        In (key, fk) d ->
        let group :=
          List.filter
            (fun row => (normalize_name (fk_cname row) =? key)%string) rows in
        group <> []
        /\ fk_name fk = Some key
        /\ fk_constrained_columns fk
           = map (fun row => normalize_name (fk_fname row)) group
        /\ fk_referred_columns fk
           = map (fun row => normalize_name (fk_targetfname row)) group
        /\ fk_referred_schema fk = None
        /\ (key <> "" ->
            fk_referred_table fk
            = option_map (fun row => normalize_name (fk_targetrname row))
                (head group))).
Proof.
  apply (group_by_key (fun row => normalize_name (fk_cname row))
           (fun _ => new_foreign_key)
           (fun row fk =>
              let cname := normalize_name (fk_cname row) in
              let unnamed :=
                match fk_name fk with
                | None => true
                | Some n => (n =? "")%string
                end in
              {| fk_name := if unnamed then Some cname else fk_name fk;
                 fk_constrained_columns :=
                   (fk_constrained_columns fk
                    ++ [normalize_name (fk_fname row)])%list;
                 fk_referred_schema := fk_referred_schema fk;
                 fk_referred_table :=
                   if unnamed then Some (normalize_name (fk_targetrname row))
                   else fk_referred_table fk;
                 fk_referred_columns :=
                   (fk_referred_columns fk
                    ++ [normalize_name (fk_targetfname row)])%list |})
           (fun name group fk =>
              fk_name fk = Some name
              /\ fk_constrained_columns fk
                 = map (fun row => normalize_name (fk_fname row)) group
              /\ fk_referred_columns fk
                 = map (fun row => normalize_name (fk_targetfname row)) group
              /\ fk_referred_schema fk = None
              /\ (name <> "" ->
                  fk_referred_table fk
                  = option_map
                      (fun row => normalize_name (fk_targetrname row))
                      (head group)))).
  - intros row. cbn. repeat split.
  - intros row group fk Hgroup (Hname & Hcc & Hrc & Hschema & Htable).
    cbn.
    rewrite Hname, Hcc, Hrc, !map_app. cbn [map].
    split; [now destruct (_ =? "")%string|].
    split; [reflexivity|]. split; [reflexivity|].
    split; [exact Hschema|].
    intros Hnonempty.
    destruct (String.eqb_spec (normalize_name (fk_cname row)) "")
      as [Heq|_]; [contradiction|].
    rewrite (Htable Hnonempty).
    destruct group as [|r g]; [contradiction | reflexivity].
Qed.

Lemma indexes_grouped (rows : list IndexRow) :
  let d := fold_left index_step rows [] in
  List.NoDup (map fst d)
  /\ (forall key,
        In key (map fst d)
        <-> exists row, In row rows /\ ix_index_name row = key)
  /\ (forall key indexrec,
        In (key, indexrec) d ->
        let group :=
          List.filter (fun row => (ix_index_name row =? key)%string) rows in
        group <> []
        /\ index_name indexrec = normalize_name key
        /\ index_column_names indexrec
           = map (fun row => normalize_name (ix_field_name row)) group
        /\ Some (index_unique indexrec)
           = option_map (fun row => truthy (ix_unique_flag row))
               (head group)).
Proof.
  apply (group_by_key ix_index_name
           (fun row =>
              {| index_name := normalize_name (ix_index_name row);
                 index_column_names := [];
                 index_unique := truthy (ix_unique_flag row) |})
           (fun row indexrec =>
              {| index_name := index_name indexrec;
                 index_column_names :=
                   (index_column_names indexrec
                    ++ [normalize_name (ix_field_name row)])%list;
                 index_unique := index_unique indexrec |})
           (fun raw_name group indexrec =>
              index_name indexrec = normalize_name raw_name
              /\ index_column_names indexrec
                 = map (fun row => normalize_name (ix_field_name row)) group
              /\ Some (index_unique indexrec)
                 = option_map (fun row => truthy (ix_unique_flag row))
                     (head group))).
  - intros row. cbn. repeat split.
  - intros row group indexrec Hgroup (Hname & Hcols & Hunique).
    cbn. rewrite Hname, Hcols, map_app.
    split; [reflexivity|]. split; [reflexivity|].
    destruct group as [|r g]; [contradiction | exact Hunique].
Qed.

End GroupedFacts.

(** X24.  [get_foreign_keys] groups the rows of the foreign-key query by
    normalized constraint name.  Every record it returns is named after a
    constraint with at least one row; its constrained and referred columns
    are the normalized field names of exactly the rows of that constraint,
    in the order of the rows, so the two lists pair up position by
    position; its referred schema is None; and, for a constraint name that
    is not empty, its referred table is the normalized target relation of
    the first row of the constraint. *)
Theorem foreign_keys_group_rows_by_constraint `{HostDialect}
    (catalog : Catalog) (table_name : string) (fk : ForeignKey) :
  In fk (get_foreign_keys catalog table_name) ->
  exists name,
    let group :=
      List.filter
        (fun row => (normalize_name (fk_cname row) =? name)%string)
        (fkqry_rows catalog (denormalize_name table_name)) in
    fk_name fk = Some name
    /\ group <> []
    /\ fk_constrained_columns fk
       = map (fun row => normalize_name (fk_fname row)) group
    /\ fk_referred_columns fk
       = map (fun row => normalize_name (fk_targetfname row)) group
    /\ length (fk_constrained_columns fk) = length (fk_referred_columns fk)
    /\ fk_referred_schema fk = None
    /\ (name <> "" ->
        fk_referred_table fk
        = option_map (fun row => normalize_name (fk_targetrname row))
            (head group)).
Proof.
  unfold get_foreign_keys. intros Hin.
  apply in_map_iff in Hin as ([name fk'] & Hfk & Hin). cbn [snd] in Hfk.
  subst fk'.
  destruct (foreign_keys_grouped
              (fkqry_rows catalog (denormalize_name table_name)))
    as (_ & _ & Hentries).
  destruct (Hentries name fk Hin)
    as (Hgroup & Hname & Hcc & Hrc & Hschema & Htable).
  exists name. cbv zeta. repeat split; try assumption.
  rewrite Hcc, Hrc, !length_map. reflexivity.
Qed.

Lemma foreign_keys_group_rows_by_constraint_witness :
  exists name,
    let group :=
      List.filter
        (fun row =>
           (@normalize_name spec_host_dialect (fk_cname row) =? name)%string)
        (fkqry_rows sample_catalog
           (@denormalize_name spec_host_dialect "item")) in
    Some "fk_a" = Some name
    /\ group <> []
    /\ ["x1"; "x2"]
       = map (fun row => @normalize_name spec_host_dialect (fk_fname row))
           group
    /\ ["y1"; "y2"]
       = map (fun row =>
                @normalize_name spec_host_dialect (fk_targetfname row)) group
    /\ length ["x1"; "x2"] = length ["y1"; "y2"]
    /\ @None string = None
    /\ (name <> "" ->
        Some "other"
        = option_map
            (fun row => @normalize_name spec_host_dialect (fk_targetrname row))
            (head group)).
Proof.
  apply (@foreign_keys_group_rows_by_constraint spec_host_dialect
           sample_catalog "item"
           {| fk_name := Some "fk_a";
              fk_constrained_columns := ["x1"; "x2"];
              fk_referred_schema := None;
              fk_referred_table := Some "other";
              fk_referred_columns := ["y1"; "y2"] |}).
  vm_compute. left. reflexivity.
Defined.

(** X25.  [get_foreign_keys] loses no row and repeats no constraint: the
    records it returns have pairwise distinct names, there is a record for
    the normalized constraint name of every row of the foreign-key query,
    and the field names of the row are among the columns of that record. *)
Theorem foreign_keys_cover_rows `{HostDialect} (catalog : Catalog)
    (table_name : string) :
  List.NoDup (map fk_name (get_foreign_keys catalog table_name))
  /\ (forall row,
        In row (fkqry_rows catalog (denormalize_name table_name)) ->
        exists fk,
          In fk (get_foreign_keys catalog table_name)
          /\ fk_name fk = Some (normalize_name (fk_cname row))
          /\ In (normalize_name (fk_fname row)) (fk_constrained_columns fk)
          /\ In (normalize_name (fk_targetfname row))
               (fk_referred_columns fk)).
Proof.
  unfold get_foreign_keys.
  destruct (foreign_keys_grouped
              (fkqry_rows catalog (denormalize_name table_name)))
    as (Hnodup & Hkeys & Hentries).
  set (d := fold_left foreign_key_step _ []) in *.
  split.
  - replace (map fk_name (map snd d)) with (map Some (map fst d));
      [now apply NoDup_map_Some|].
    rewrite !map_map. apply map_ext_in. intros [name fk] Hin.
    destruct (Hentries name fk Hin) as (_ & Hname & _).
    cbn [fst snd]. now rewrite Hname.
  - intros row Hrow.
    assert (Hkey : In (normalize_name (fk_cname row)) (map fst d))
      by (apply Hkeys; now exists row).
    apply in_map_iff in Hkey as ([name fk] & Hname & Hin).
    cbn [fst] in Hname. subst name.
    destruct (Hentries _ fk Hin) as (_ & Hname & Hcc & Hrc & _).
    assert (Hgroup : In row
      (List.filter
         (fun r => (normalize_name (fk_cname r)
                    =? normalize_name (fk_cname row))%string)
         (fkqry_rows catalog (denormalize_name table_name)))).
    { apply filter_In. split; [exact Hrow | apply String.eqb_refl]. }
    exists fk.
    split; [apply in_map_iff; now exists (normalize_name (fk_cname row), fk)|].
    split; [exact Hname|]. rewrite Hcc, Hrc.
    split; apply in_map_iff; now exists row.
Qed.

Lemma foreign_keys_cover_rows_witness :
  @get_foreign_keys spec_host_dialect sample_catalog "item"
  = [ {| fk_name := Some "fk_a"; fk_constrained_columns := ["x1"; "x2"];
         fk_referred_schema := None; fk_referred_table := Some "other";
         fk_referred_columns := ["y1"; "y2"] |};
      {| fk_name := Some "fk_b"; fk_constrained_columns := ["z"];
         fk_referred_schema := None; fk_referred_table := Some "third";
         fk_referred_columns := ["w"] |} ]
  /\ List.NoDup (map fk_name
              (@get_foreign_keys spec_host_dialect sample_catalog "item")).
Proof.
  split; [vm_compute; reflexivity|].
  exact (proj1 (@foreign_keys_cover_rows spec_host_dialect sample_catalog
                  "item")).
Defined.

(** X26.  [get_indexes] groups the rows of the index query by the index
    name as the catalog reports it.  Every record it returns belongs to an
    index with at least one row: its name is the normalized index name, its
    columns are the normalized field names of exactly the rows of that
    index, in the order of the rows, and it is unique exactly when the
    unique flag of the first row of the index is neither NULL nor zero.
    Every row of the query has its field among the columns of a record of
    that name. *)
Theorem indexes_group_rows_by_index `{HostDialect} (catalog : Catalog)
    (table_name : string) :
  (forall indexrec,
      In indexrec (get_indexes catalog table_name) ->
      exists raw_name first_row rest,
        List.filter (fun row => (ix_index_name row =? raw_name)%string)
          (indexqry_rows catalog (denormalize_name table_name))
        = first_row :: rest
        /\ index_name indexrec = normalize_name raw_name
        /\ index_column_names indexrec
           = map (fun row => normalize_name (ix_field_name row))
               (first_row :: rest)
        /\ index_unique indexrec = truthy (ix_unique_flag first_row))
  /\ (forall row,
        In row (indexqry_rows catalog (denormalize_name table_name)) ->
        exists indexrec,
          In indexrec (get_indexes catalog table_name)
          /\ index_name indexrec = normalize_name (ix_index_name row)
          /\ In (normalize_name (ix_field_name row))
               (index_column_names indexrec)).
Proof.
  unfold get_indexes.
  destruct (indexes_grouped
              (indexqry_rows catalog (denormalize_name table_name)))
    as (_ & Hkeys & Hentries).
  set (d := fold_left index_step _ []) in *.
  split.
  - intros indexrec Hin.
    apply in_map_iff in Hin as ([raw_name rec] & Hrec & Hin).
    cbn [snd] in Hrec. subst rec.
    destruct (Hentries raw_name indexrec Hin)
      as (Hgroup & Hname & Hcols & Hunique).
    destruct (List.filter _ _) as [|first_row rest] eqn:Hfilter;
      [contradiction|].
    exists raw_name, first_row, rest.
    split; [exact Hfilter|]. split; [exact Hname|].
    split; [exact Hcols|]. cbn in Hunique. now injection Hunique.
  - intros row Hrow.
    assert (Hkey : In (ix_index_name row) (map fst d))
      by (apply Hkeys; now exists row).
    apply in_map_iff in Hkey as ([raw_name indexrec] & Hname & Hin).
    cbn [fst] in Hname. subst raw_name.
    destruct (Hentries _ indexrec Hin) as (_ & Hname & Hcols & _).
    exists indexrec.
    split; [apply in_map_iff; now exists (ix_index_name row, indexrec)|].
    split; [exact Hname|]. rewrite Hcols. apply in_map_iff. exists row.
    split; [reflexivity|]. apply filter_In.
    split; [exact Hrow | apply String.eqb_refl].
Qed.

Lemma indexes_group_rows_by_index_witness :
  @get_indexes spec_host_dialect sample_catalog "item"
  = [ {| index_name := "ix_a"; index_column_names := ["x1"; "x2"];
         index_unique := true |};
      {| index_name := "ix_b"; index_column_names := ["z"];
         index_unique := false |} ]
  /\ exists indexrec,
       In indexrec (@get_indexes spec_host_dialect sample_catalog "item")
       /\ index_name indexrec = @normalize_name spec_host_dialect "IX_B"
       /\ In (@normalize_name spec_host_dialect "Z")
            (index_column_names indexrec).
Proof.
  split; [vm_compute; reflexivity|].
  destruct (@indexes_group_rows_by_index spec_host_dialect sample_catalog
              "item") as [_ Hcover].
  apply (Hcover {| ix_index_name := "IX_B"; ix_unique_flag := None;
                   ix_field_name := "Z" |}).
  vm_compute. tauto.
Defined.
